(** * SEO Toolbox: the three text-processing handlers of [registerRoutes]

    A shallow embedding of the title-case converter, the keyword-density
    analyzer and the blog-outline structurer of the server's route file,
    with the JavaScript string and number primitives they call. *)

From Stdlib Require Import List String Ascii Arith ZArith QArith Qround Qabs Bool Lia.
From Stdlib Require Import Sorted Permutation Lqa.
From Stdlib Require Import DecimalString DecimalNat.
Import ListNotations.

Local Open Scope string_scope.
Local Open Scope list_scope.
Local Open Scope nat_scope.

(* ================================================================== *)
(** * The JavaScript primitives the handlers use *)
(* ================================================================== *)

Module JS.

(** ** Characters

    A string is a sequence of 8-bit characters read as the code units
    U+0000 to U+00FF (Basic Latin and Latin-1 Supplement). *)

Definition code (c : ascii) : nat := nat_of_ascii c.

Definition between (lo hi n : nat) : bool := (lo <=? n) && (n <=? hi).

(** [\s] of a regular expression, and the characters [trim] removes:
    TAB, LF, VT, FF, CR, SPACE and NO-BREAK SPACE. *)
Definition is_space (c : ascii) : bool :=
  between 9 13 (code c) || (code c =? 32) || (code c =? 160).

(** [\d]: 0-9. *)
Definition is_digit (c : ascii) : bool := between 48 57 (code c).

(** [\w]: A-Z, a-z, 0-9 and underscore. *)
Definition is_word (c : ascii) : bool :=
  between 65 90 (code c) || between 97 122 (code c)
  || is_digit c || (code c =? 95).

(** Code units below U+0080. *)
Definition is_ascii (c : ascii) : bool := code c <? 128.

(** Letters with a lower-case form: A-Z, and U+00C0-U+00DE but U+00D7. *)
Definition has_lower (c : ascii) : bool :=
  between 65 90 (code c) || between 192 214 (code c)
  || between 216 222 (code c).

(** Letters with an upper-case form of one code unit in the same range:
    a-z, and U+00E0-U+00FE but U+00F7. *)
Definition has_upper (c : ascii) : bool :=
  between 97 122 (code c) || between 224 246 (code c)
  || between 248 254 (code c).

Definition lower_char (c : ascii) : ascii :=
  if has_lower c then ascii_of_nat (code c + 32) else c.

(** U+00DF (sharp s) has the two-letter upper-case form SS.  The
    upper-case forms of U+00B5 and U+00FF are U+039C and U+0178, which
    the alphabet does not have: the two are left as they are here, so
    [upper_char] is the upper-case form of the code for every character
    but these two, and what is stated of the case of a capitalized word
    is stated of words that do not begin with them. *)
Definition upper_char (c : ascii) : string :=
  if code c =? 223 then "SS"
  else if has_upper c then String (ascii_of_nat (code c - 32)) ""
  else String c "".

(** ** Strings *)

Fixpoint map_chars (f : ascii -> ascii) (s : string) : string :=
  match s with
  | "" => ""
  | String c s' => String (f c) (map_chars f s')
  end.

(** [s.toLowerCase()] *)
Definition toLowerCase (s : string) : string := map_chars lower_char s.

(** [s.toUpperCase()] *)
Fixpoint toUpperCase (s : string) : string :=
  match s with
  | "" => ""
  | String c s' => (upper_char c ++ toUpperCase s')%string
  end.

(** [s.charAt(0)]: the first character as a string, empty when there is
    none. *)
Definition charAt0 (s : string) : string :=
  match s with
  | "" => ""
  | String c _ => String c ""
  end.

(** [s.slice(1)] *)
Definition slice1 (s : string) : string :=
  match s with
  | "" => ""
  | String _ s' => s'
  end.

Definition starts_with (p : ascii -> bool) (s : string) : bool :=
  match s with
  | "" => false
  | String c _ => p c
  end.

Fixpoint drop_while (p : ascii -> bool) (s : string) : string :=
  match s with
  | "" => ""
  | String c s' => if p c then drop_while p s' else s
  end.

Fixpoint all_chars (p : ascii -> bool) (s : string) : bool :=
  match s with
  | "" => true
  | String c s' => p c && all_chars p s'
  end.

(** The pieces of [s] between the characters satisfying [sep], one
    separator per character: [s.split(c)] for a one-character
    separator. *)
Fixpoint split_at (sep : ascii -> bool) (s : string) : list string :=
  match s with
  | "" => [""]
  | String c s' =>
      if sep c then "" :: split_at sep s'
      else match split_at sep s' with
           | p :: r => String c p :: r
           | [] => [String c ""]
           end
  end.

(** [s.split(/\s+/)]: every maximal run of white space is one
    separator, so a run at either end of [s] leaves an empty piece
    there, and the empty string gives one empty piece. *)
Fixpoint split_ws (s : string) : list string :=
  match s with
  | "" => [""]
  | String c s' =>
      if is_space c then
        if starts_with is_space s' then split_ws s' else "" :: split_ws s'
      else match split_ws s' with
           | p :: r => String c p :: r
           | [] => [String c ""]
           end
  end.

(** [s.split('\n')] *)
Definition split_lines (s : string) : list string :=
  split_at (fun c => code c =? 10) s.

(** [ws.join(' ')] *)
Definition join_space (ws : list string) : string := String.concat " " ws.

(** White space removed at the end of [s]. *)
Fixpoint trim_end (s : string) : string :=
  match s with
  | "" => ""
  | String c s' =>
      match trim_end s' with
      | "" => if is_space c then "" else String c ""
      | t => String c t
      end
  end.

(** [s.trim()] *)
Definition trim (s : string) : string := trim_end (drop_while is_space s).

(** [s.startsWith(c)] for a one-character [c]. *)
Definition startsWith (c : ascii) (s : string) : bool :=
  starts_with (Ascii.eqb c) s.

(** [set.has(w)] for a set of strings given by its elements. *)
Definition has (set : list string) (w : string) : bool :=
  existsb (String.eqb w) set.

(** ** Numbers

    A Number is modelled by its exact rational value, with [NaN] and
    [Infinity] for the results of a division by zero; the rounding of
    IEEE-754 arithmetic is not modelled.  No number of these handlers is
    negative, so the one [Infinity] stands for the positive one.

    The doubles of the code differ from these values in their last
    bits, which shows where an exact value is a tie of [toFixed(2)]:
    23 / 160 * 100 is 14.375 here and rounds to 14.38, and is just below
    it as a double and rounds to 14.37.  So the statements about
    densities give their bands and bounds, which the doubles share, and
    not their digits. *)

Inductive Number : Type :=
| Fin (q : Q)
| Infinity
| NaN.

Definition of_nat (n : nat) : Number := Fin (inject_Z (Z.of_nat n)).

Definition Qltb (x y : Q) : bool := negb (Qle_bool y x).

(** [a / b] *)
Definition div (a b : Number) : Number :=
  match a, b with
  | NaN, _ | _, NaN => NaN
  | Infinity, Infinity => NaN
  | Infinity, Fin _ => Infinity
  | Fin _, Infinity => Fin 0
  | Fin x, Fin y =>
      if Qeq_bool y 0 then (if Qeq_bool x 0 then NaN else Infinity)
      else Fin (x / y)%Q
  end.

(** [a * b] *)
Definition mul (a b : Number) : Number :=
  match a, b with
  | NaN, _ | _, NaN => NaN
  | Infinity, Infinity => Infinity
  | Infinity, Fin x | Fin x, Infinity =>
      if Qeq_bool x 0 then NaN else Infinity
  | Fin x, Fin y => Fin (x * y)%Q
  end.

(** [a + b] *)
Definition add (a b : Number) : Number :=
  match a, b with
  | NaN, _ | _, NaN => NaN
  | Infinity, _ | _, Infinity => Infinity
  | Fin x, Fin y => Fin (x + y)%Q
  end.

(** [a < b] *)
Definition lt (a b : Number) : bool :=
  match a, b with
  | Fin x, Fin y => Qltb x y
  | Fin _, Infinity => true
  | _, _ => false
  end.

(** The value of the decimal string [q.toFixed(2)]: the nearest multiple
    of 1/100, the larger one of two equally near, the sign of a negative
    [q] set aside first; from 10^21 on the string is that of [q]
    itself. *)
Definition round_hundredths (q : Q) : Q :=
  (Qfloor (q * 100 + (1 # 2)) # 100)%Q.

Definition toFixed2 (q : Q) : Q :=
  if Qle_bool (10 ^ 21) (Qabs q) then q
  else if Qltb q 0 then (- round_hundredths (- q))%Q
  else round_hundredths q.

(** [Number(a.toFixed(2))] *)
Definition round2 (a : Number) : Number :=
  match a with
  | Fin q => Fin (toFixed2 q)
  | Infinity => Infinity
  | NaN => NaN
  end.

(** [a || 0] *)
Definition or_zero (a : Number) : Number :=
  match a with
  | Fin q => if Qeq_bool q 0 then Fin 0 else a
  | Infinity => Infinity
  | NaN => Fin 0
  end.

(** ** Arrays and Maps *)

(** [arr.sort(cmp)]: the sort is stable; an element goes in front of the
    first one it does not have to follow. *)
Fixpoint insert_by {A : Type} (cmp : A -> A -> Z) (x : A) (l : list A)
  : list A :=
  match l with
  | [] => [x]
  | y :: l' =>
      if (cmp x y <=? 0)%Z then x :: y :: l' else y :: insert_by cmp x l'
  end.

Definition sort {A : Type} (cmp : A -> A -> Z) (l : list A) : list A :=
  fold_right (insert_by cmp) [] l.

(** A [Map<string, number>] whose values are counts, as the list of its
    entries in insertion order. *)
Fixpoint map_get (m : list (string * nat)) (k : string) : option nat :=
  match m with
  | [] => None
  | (k', v) :: m' => if String.eqb k' k then Some v else map_get m' k
  end.

(** [m.set(k, v)]: the entry of a key already present keeps its place. *)
Fixpoint map_set (k : string) (v : nat) (m : list (string * nat))
  : list (string * nat) :=
  match m with
  | [] => [(k, v)]
  | (k', v') :: m' =>
      if String.eqb k' k then (k', v) :: m' else (k', v') :: map_set k v m'
  end.

(** [x || 0] for the result of [m.get]. *)
Definition get_or_zero (x : option nat) : nat :=
  match x with
  | Some v => v
  | None => 0
  end.

End JS.

(* ================================================================== *)
(** * Title Case Converter: POST /api/title-case *)
(* ================================================================== *)

Module TitleCase.
Import JS.

Definition stopWords : list string :=
  [ "a"; "an"; "and"; "as"; "at"; "but"; "by"; "for"; "if"; "in";
    "is"; "it"; "nor"; "of"; "on"; "or"; "so"; "the"; "to"; "up"; "yet" ].

(** [word.charAt(0).toUpperCase() + word.slice(1)] *)
Definition capitalize (word : string) : string :=
  (toUpperCase (charAt0 word) ++ slice1 word)%string.

(** [arr.map((x, index) => f x index)], the indices counted from [i]. *)
Fixpoint mapi_from {A B : Type} (f : A -> Z -> B) (i : Z) (l : list A)
  : list B :=
  match l with
  | [] => []
  | x :: l' => f x i :: mapi_from f (i + 1)%Z l'
  end.

Definition mapi {A B : Type} (f : A -> Z -> B) (l : list A) : list B :=
  mapi_from f 0%Z l.

(** The callback of [words.map]. *)
Definition convertWord (n : Z) (word : string) (index : Z) : string :=
  if (index =? 0)%Z || (index =? n - 1)%Z then capitalize word
  else if has stopWords word then word
  else capitalize word.

Definition words (text : string) : list string :=
  split_ws (toLowerCase text).

Definition convertedWords (text : string) : list string :=
  let ws := words text in
  mapi (convertWord (Z.of_nat (List.length ws))) ws.

Definition converted (text : string) : string :=
  join_space (convertedWords text).

Definition rulesApplied : list string :=
  [ "Capitalized major words (nouns, verbs, adjectives)";
    "Kept articles lowercase (a, an, the)";
    "Kept prepositions lowercase (for, to, in, of, etc.)";
    "Capitalized first and last words" ].

Record TitleCaseResponse := {
  original : string;
  tc_converted : string;
  tc_rulesApplied : list string
}.

(** [titleCaseRequestSchema]: [text] is a string of at least one
    character. *)
Definition titleCaseRequestSchema (text : string) : bool :=
  1 <=? String.length text.

(** The handler: the response, or [None] where [parse] throws. *)
Definition titleCase (text : string) : option TitleCaseResponse :=
  if titleCaseRequestSchema text then
    Some {| original := text;
            tc_converted := converted text;
            tc_rulesApplied := rulesApplied |}
  else None.

End TitleCase.


(* ================================================================== *)
(** * Keyword Density Analyzer: POST /api/keyword-density *)
(* ================================================================== *)

Module KeywordDensity.
Import JS.

Inductive Status := low | good | optimal | high.

Record KeywordStat := {
  word : string;
  frequency : nat;
  density : Number;
  status : Status
}.

Record KeywordDensityResponse := {
  totalWords : nat;
  uniqueKeywords : nat;
  keywords : list KeywordStat;
  avgDensity : Number;
  topKeywordDensity : Number
}.

(** [.replace(/[^\w\s]/g, ' ')] *)
Definition clean_char (c : ascii) : ascii :=
  if negb (is_word c || is_space c) then " "%char else c.

(** The cleaned, split and filtered words of the content. *)
Definition words (content : string) : list string :=
  filter (fun word => 2 <? String.length word)
    (split_ws (map_chars clean_char (toLowerCase content))).

(** The [forEach] that counts the words. *)
Definition countWords (ws : list string) : list (string * nat) :=
  fold_left
    (fun wordCount word =>
       map_set word (get_or_zero (map_get wordCount word) + 1) wordCount)
    ws [].

Definition rawDensity (totalWords frequency : nat) : Number :=
  mul (div (of_nat frequency) (of_nat totalWords)) (Fin 100).

Definition classify (density : Number) : Status :=
  if lt density (Fin 1) then low
  else if lt density (Fin 2) then good
  else if lt density (Fin 4) then optimal
  else high.

(** The callback of [.map] over the entries of [wordCount]. *)
Definition stat (totalWords : nat) (e : string * nat) : KeywordStat :=
  let '(word, frequency) := e in
  let density := rawDensity totalWords frequency in
  {| word := word;
     frequency := frequency;
     density := round2 density;
     status := classify density |}.

(** [(a, b) => b.frequency - a.frequency] *)
Definition byFrequency (a b : KeywordStat) : Z :=
  (Z.of_nat (frequency b) - Z.of_nat (frequency a))%Z.

(** The statistics of all the distinct words, in the order of
    [wordCount]. *)
Definition allStats (content : string) : list KeywordStat :=
  let ws := words content in
  map (stat (List.length ws)) (countWords ws).

Definition sortedStats (content : string) : list KeywordStat :=
  sort byFrequency (allStats content).

Definition analyze (content : string) : KeywordDensityResponse :=
  let ws := words content in
  let totalWords := List.length ws in
  let wordCount := countWords ws in
  let keywords := firstn 20 (sortedStats content) in
  let avgDensity :=
    round2 (div (fold_left (fun sum k => add sum (density k)) keywords (Fin 0))
                (of_nat (List.length keywords))) in
  let topKeywordDensity :=
    match keywords with
    | [] => Fin 0
    | k :: _ => or_zero (density k)
    end in
  {| totalWords := totalWords;
     uniqueKeywords := List.length wordCount;
     keywords := keywords;
     avgDensity := avgDensity;
     topKeywordDensity := topKeywordDensity |}.

(** [keywordDensityRequestSchema]: [content] is a string of at least 50
    characters. *)
Definition keywordDensityRequestSchema (content : string) : bool :=
  50 <=? String.length content.

(** The handler: the response, or [None] where [parse] throws. *)
Definition keywordDensity (content : string)
  : option KeywordDensityResponse :=
  if keywordDensityRequestSchema content then Some (analyze content)
  else None.

End KeywordDensity.

(* ================================================================== *)
(** * Blog Outline Generator: POST /api/blog-outline *)
(* ================================================================== *)

Module BlogOutline.
Import JS.

Record OutlineSection := {
  heading : string;
  level : nat;
  subsections : list string
}.

(** [aiResponse.split('\n').filter(line => line.trim())] *)
Definition lines (aiResponse : string) : list string :=
  filter (fun line => negb (String.eqb (trim line) ""))
    (split_lines aiResponse).

(** [trimmed.match(/^\d+\./)] *)
Definition isNumbered (trimmed : string) : bool :=
  starts_with is_digit trimmed
  && startsWith "." (drop_while is_digit trimmed).

(** [trimmed.replace(/^\d+\.\s*/, '')] *)
Definition stripNumber (trimmed : string) : string :=
  if isNumbered trimmed
  then drop_while is_space (slice1 (drop_while is_digit trimmed))
  else trimmed.

(** [trimmed.replace(/^-\s*/, '')] *)
Definition stripDash (trimmed : string) : string :=
  if startsWith "-" trimmed then drop_while is_space (slice1 trimmed)
  else trimmed.

(** The state of the loop: [sections] and [currentSection]. *)
Definition state : Type :=
  (list OutlineSection * option OutlineSection)%type.

(** [if (currentSection) sections.push(currentSection)] *)
Definition pushCurrent (st : state) : list OutlineSection :=
  match snd st with
  | Some current => fst st ++ [current]
  | None => fst st
  end.

(** The body of [for (const line of lines)]. *)
Definition step (st : state) (line : string) : state :=
  let trimmed := trim line in
  if isNumbered trimmed then
    (pushCurrent st,
     Some {| heading := stripNumber trimmed;
             level := 2;
             subsections := [] |})
  else
    match snd st with
    | Some current =>
        if startsWith "-" trimmed then
          (fst st,
           Some {| heading := heading current;
                   level := level current;
                   subsections :=
                     subsections current ++ [stripDash trimmed] |})
        else st
    | None => st
    end.

(** The sections after the loop and the last push. *)
Definition parse (aiResponse : string) : list OutlineSection :=
  pushCurrent (fold_left step (lines aiResponse) ([], None)).

Definition fallback (topic : string) : list OutlineSection :=
  [ {| heading := "Introduction"; level := 2;
       subsections := [("Why " ++ topic ++ " matters")%string; "What you'll learn"] |};
    {| heading := "Main Content"; level := 2;
       subsections := ["Key concepts"; "Best practices"; "Common mistakes"] |};
    {| heading := "Conclusion"; level := 2;
       subsections := ["Key takeaways"; "Next steps"] |} ].

(** The sections of the response, from the text of the generator and the
    topic of the request. *)
Definition structure (aiResponse topic : string) : list OutlineSection :=
  let sections := parse aiResponse in
  if List.length sections =? 0 then sections ++ fallback topic
  else sections.

(** The outline as the specification words it: every numbered line
    heads a section, whose subsections are the dash lines up to the
    next numbered line; the lines are the trimmed non-blank ones. *)
Fixpoint subsections_spec (ls : list string) : list string :=
  match ls with
  | [] => []
  | l :: ls' =>
      if isNumbered l then []
      else if startsWith "-" l then trim (slice1 l) :: subsections_spec ls'
      else subsections_spec ls'
  end.

Fixpoint sections_spec (ls : list string) : list OutlineSection :=
  match ls with
  | [] => []
  | l :: ls' =>
      if isNumbered l then
        {| heading := stripNumber l; level := 2;
           subsections := subsections_spec ls' |} :: sections_spec ls'
      else sections_spec ls'
  end.

End BlogOutline.

(* ================================================================== *)
(** * The text generator: [callHuggingFace] *)
(* ================================================================== *)

Module HuggingFace.
Import JS.

(** What [fetch] and [response.json()] give for a request: a rejection
    (or a body that is no object), a response that is not [ok], or a
    body, of which [result[0]?.generated_text] and
    [result.generated_text] are read, either of them a string or
    undefined. *)
Inductive FetchResult : Type :=
| Rejected
| NotOk (statusText : string)
| Body (first_generated_text generated_text : option string).

(** The hosted model: from the key of the [Authorization] header and the
    prompt to the result of the request. *)
Definition Service : Type := string -> string -> FetchResult.

(** The two variables of [process.env] that are read. *)
Record Env := {
  HUGGING_FACE_API_KEY : option string;
  HF_API_KEY : option string
}.

(** [a || b] for a string or undefined [a]. *)
Definition or_else (a : option string) (b : string) : string :=
  match a with
  | Some x => if String.eqb x "" then b else x
  | None => b
  end.

(** [process.env.HUGGING_FACE_API_KEY || process.env.HF_API_KEY || ""] *)
Definition apiKey (env : Env) : string :=
  or_else (HUGGING_FACE_API_KEY env) (or_else (HF_API_KEY env) "").

(** [callHuggingFace]: the generated text, or the message of the error
    thrown. *)
Definition callHuggingFace (env : Env) (service : Service) (prompt : string)
  : string + string :=
  if String.eqb (apiKey env) "" then
    inl "Hugging Face API key not configured"
  else
    match service (apiKey env) prompt with
    | Rejected => inl "Failed to generate AI content"
    | NotOk _ => inl "Failed to generate AI content"
    | Body first top => inr (or_else first (or_else top ""))
    end.

(** What a handler sends: [res.json(body)], or
    [res.status(500).json({ message })]. *)
Inductive Reply (A : Type) : Type :=
| Json (body : A)
| Status500 (message : string).
Arguments Json {A} body.
Arguments Status500 {A} message.

(** The double quote. *)
Definition dquote : string := String "034" "".

(** [audience ? ` for ${audience}` : ""] *)
Definition audienceText (audience : option string) : string :=
  match audience with
  | Some a => if String.eqb a "" then "" else (" for " ++ a)%string
  | None => ""
  end.

End HuggingFace.

(* ================================================================== *)
(** * Meta Description Generator: POST /api/meta-description *)
(* ================================================================== *)

Module MetaDescription.
Import JS HuggingFace.

Record MetaDescriptionResponse := {
  content : string;
  length : nat
}.

(** [metaDescriptionRequestSchema]: [title] is a string of at least one
    character, [audience] a string or absent. *)
Definition metaDescriptionRequestSchema (title : string) : bool :=
  1 <=? String.length title.

Definition prompt (title : string) (audience : option string) : string :=
  ("Write a compelling SEO meta description (150-160 characters) for this blog post title: "
   ++ dquote ++ title ++ dquote ++ audienceText audience
   ++ ". Make it engaging and include relevant keywords.")%string.

(** The response made of the generated text. *)
Definition respond (aiResponse : string) : MetaDescriptionResponse :=
  let content := trim aiResponse in
  {| content := if 160 <? String.length content
                then String.substring 0 160 content else content;
     length := Nat.min (String.length content) 160 |}.

(** The handler: the reply, or [None] where [parse] throws. *)
Definition metaDescription (env : Env) (service : Service)
           (title : string) (audience : option string)
  : option (Reply MetaDescriptionResponse) :=
  if metaDescriptionRequestSchema title then
    match callHuggingFace env service (prompt title audience) with
    | inr aiResponse => Some (Json (respond aiResponse))
    | inl message => Some (Status500 message)
    end
  else None.

End MetaDescription.

(* ================================================================== *)
(** * Blog Outline Generator: the handler around the parser *)
(* ================================================================== *)

Module BlogOutlineHandler.
Import JS HuggingFace BlogOutline.

(** The [length] of the request, [medium] when absent. *)
Inductive Length := short | medium | long.

Record BlogOutlineResponse := {
  title : string;
  sections : list OutlineSection;
  estimatedWordCount : Z;
  estimatedReadingTime : Z
}.

(** [blogOutlineRequestSchema]: [topic] is a string of at least one
    character. *)
Definition blogOutlineRequestSchema (topic : string) : bool :=
  1 <=? String.length topic.

Definition lengthText (length : Length) : string :=
  match length with
  | short => "5-7 sections"
  | medium => "7-10 sections"
  | long => "10-15 sections"
  end.

Definition prompt (topic : string) (audience : option string)
           (length : Length) : string :=
  ("Create a detailed blog outline for: " ++ dquote ++ topic ++ dquote
   ++ audienceText audience ++ ". Include " ++ lengthText length
   ++ " with H1, H2, and H3 headings. Structure it as a comprehensive guide with introduction and conclusion.")%string.

Definition wordCountOf (length : Length) : Z :=
  match length with
  | short => 1200
  | medium => 2500
  | long => 4000
  end.

(** [Math.ceil(estimatedWordCount / 250)] *)
Definition readingTimeOf (estimatedWordCount : Z) : Z :=
  Qceiling (inject_Z estimatedWordCount / 250).

(** The handler: the reply, or [None] where [parse] throws. *)
Definition blogOutline (env : Env) (service : Service)
           (topic : string) (audience : option string) (length : Length)
  : option (Reply BlogOutlineResponse) :=
  if blogOutlineRequestSchema topic then
    match callHuggingFace env service (prompt topic audience length) with
    | inr aiResponse =>
        Some (Json {| title := topic;
                      sections := structure aiResponse topic;
                      estimatedWordCount := wordCountOf length;
                      estimatedReadingTime :=
                        readingTimeOf (wordCountOf length) |})
    | inl message => Some (Status500 message)
    end
  else None.

End BlogOutlineHandler.

(* ================================================================== *)
(** * The pages of the client *)
(* ================================================================== *)

Module Client.
Import JS BlogOutline.

(** [`${n}`] for a natural number. *)
Definition decimal (n : nat) : string :=
  NilZero.string_of_uint (Nat.to_uint n).

(** [arr.join('\n')] and [arr.join('\n\n')] *)
Definition joinLF (l : list string) : string :=
  String.concat (String "010" "") l.

Definition joinLFLF (l : list string) : string :=
  String.concat (String "010" (String "010" "")) l.

(** The callback of [result.sections.map] in [copyOutline]. *)
Definition sectionText (section : OutlineSection) (index : Z) : string :=
  let text := (decimal (Z.to_nat (index + 1)) ++ ". " ++ heading section)%string in
  if 0 <? List.length (subsections section) then
    (text ++ String "010" ""
     ++ joinLF (map (fun sub => ("   - " ++ sub)%string)
                    (subsections section)))%string
  else text.

(** [outlineText] of [copyOutline], the text put on the clipboard. *)
Definition outlineText (title : string) (sections : list OutlineSection)
  : string :=
  (title ++ String "010" (String "010" "")
   ++ joinLFLF (TitleCase.mapi sectionText sections))%string.

(** The number of subsections the page shows:
    [sections.reduce((sum, s) => sum + (s.subsections?.length || 0), 0)] *)
Definition subsectionCount (sections : list OutlineSection) : nat :=
  fold_left (fun sum section => sum + List.length (subsections section))
    sections 0.

(** The live word count of [handleContentChange]:
    [content.trim() ? content.trim().split(/\s+/).length : 0] *)
Definition wordCount (content : string) : nat :=
  if String.eqb (trim content) "" then 0
  else List.length (split_ws (trim content)).

End Client.

(* ================================================================== *)
(** * Predicates and inputs of the statements *)
(* ================================================================== *)

(** No character of [w] is white space. *)
Definition no_space (w : string) : bool :=
  JS.all_chars (fun c => negb (JS.is_space c)) w.

(** Every piece but the last one is non-empty. *)
Fixpoint inner_nonempty (ws : list string) : bool :=
  match ws with
  | [] => true
  | [_] => true
  | w :: ws' => negb (String.eqb w "") && inner_nonempty ws'
  end.

(** The lists [split_ws] gives: at least one piece, no white space in a
    piece, no empty piece but at the two ends. *)
Definition pieces (ws : list string) : Prop :=
  ws <> [] /\ forallb no_space ws = true /\ inner_nonempty (tl ws) = true.

(** The last character of [s] is white space. *)
Fixpoint ends_with_space (s : string) : bool :=
  match s with
  | "" => false
  | String c "" => JS.is_space c
  | String _ s' => ends_with_space s'
  end.

(** Lower-casing leaves every character of [w] as it is. *)
Definition lowered (w : string) : bool :=
  JS.all_chars (fun c => Ascii.eqb (JS.lower_char c) c) w.

(** The characters whose upper-case form is not one character of the
    alphabet: U+00B5 (upper-case U+039C), U+00DF (upper-case SS) and
    U+00FF (upper-case U+0178). *)
Definition wide_upper (c : ascii) : bool :=
  (JS.code c =? 181) || (JS.code c =? 223) || (JS.code c =? 255).

(** The word begins with such a character. *)
Definition wide_initial (w : string) : bool :=
  JS.starts_with wide_upper w.

(** The sum of the counts of a word-count map. *)
Definition sumValues (m : list (string * nat)) : nat :=
  list_sum (map snd m).

(** The sum of the [frequency] fields of a list of statistics. *)
Definition sumFrequency (ks : list KeywordDensity.KeywordStat) : nat :=
  list_sum (map KeywordDensity.frequency ks).

(** [a] does not come after [b]: its frequency is not the smaller. *)
Definition notBelow (a b : KeywordDensity.KeywordStat) : Prop :=
  KeywordDensity.frequency b <= KeywordDensity.frequency a.

(** A content of 201 words of three letters: "seo" twice and 199 other
    words once each. *)
Definition content201 : string :=
  ("seo ban bar bat ben ber bet bin bir bit bon bor bot bun bur but " ++
   "can car cat cen cer cet cin cir cit con cor cot cun cur cut dan " ++
   "dar dat den der det din dir dit don dor dot dun dur dut fan far " ++
   "fat fen fer fet fin fir fit fon for fot fun fur fut gan gar gat " ++
   "gen ger get gin gir git gon gor got gun gur gut han har hat hen " ++
   "her het hin hir hit hon hor hot hun hur hut jan jar jat jen jer " ++
   "jet jin jir jit jon seo jor jot jun jur jut kan kar kat ken ker " ++
   "ket kin kir kit kon kor kot kun kur kut lan lar lat len ler let " ++
   "lin lir lit lon lor lot lun lur lut man mar mat men mer met min " ++
   "mir mit mon mor mot mun mur mut nan nar nat nen ner net nin nir " ++
   "nit non nor not nun nur nut pan par pat pen per pet pin pir pit " ++
   "pon por pot pun pur put ran rar rat ren rer ret rin rir rit ron " ++
   "ror rot run rur rut san sar sat sen")%string.

(** A content of more than fifty characters with no word of more than
    two letters. *)
Definition shortWordsContent : string :=
  "So it is: if he is up at 6, we go on by 7 -- or do I? No, no; it is OK.".

(** [current] with [subs] pushed to its subsections. *)
Definition addSubsections (current : BlogOutline.OutlineSection) (subs : list string)
  : BlogOutline.OutlineSection :=
  {| BlogOutline.heading := BlogOutline.heading current;
     BlogOutline.level := BlogOutline.level current;
     BlogOutline.subsections := BlogOutline.subsections current ++ subs |}.

(** The line feed. *)
Definition LF : string := String "010" "".

(** The outline of the example of the specification. *)
Definition exampleOutline : string :=
  ("1. Getting Started" ++ LF ++ "- Install" ++ LF ++ "- Configure" ++ LF
   ++ "2. Advanced" ++ LF ++ "- Scale")%string.

(** A lower-case letter, a digit or the underscore: a word character
    that lower-casing leaves as it is. *)
Definition lower_word_char (c : ascii) : bool :=
  JS.is_word c && negb (JS.has_lower c).

(** The density before rounding of a word of frequency [f] among [t]
    words, as a rational. *)
Definition densityOf (f t : nat) : Q :=
  (inject_Z (Z.of_nat f) / inject_Z (Z.of_nat t) * 100)%Q.

(** The pieces that are not empty. *)
Definition nonempty_pieces (ws : list string) : list string :=
  filter (fun w => negb (String.eqb w "")) ws.

(** The string is empty or begins with white space. *)
Definition at_word_end (s : string) : bool :=
  match s with
  | "" => true
  | String c _ => JS.is_space c
  end.

(** The number of characters other than white space that are followed
    by white space or by the end of the string. *)
Fixpoint word_ends (s : string) : nat :=
  match s with
  | "" => 0
  | String c s' =>
      if JS.is_space c then word_ends s'
      else if at_word_end s' then S (word_ends s') else word_ends s'
  end.

(** No character of [s] is a line feed. *)
Definition no_LF (s : string) : bool :=
  JS.all_chars (fun c => negb (JS.code c =? 10)) s.

(** A text of one line with no white space around it. *)
Definition clean (s : string) : bool :=
  String.eqb (JS.trim s) s && no_LF s.

(** A section of level 2 whose heading and subsections are clean. *)
Definition cleanSection (s : BlogOutline.OutlineSection) : bool :=
  (BlogOutline.level s =? 2) && clean (BlogOutline.heading s)
  && forallb clean (BlogOutline.subsections s).

(** [x] after a space, or nothing when [x] is empty. *)
Definition after_space (x : string) : string :=
  match x with
  | "" => ""
  | _ => String " " x
  end.

(* ================================================================== *)
(** * Facts about the primitives *)
(* ================================================================== *)

Section Characters.
Import JS.

Ltac each_char c := destruct c as [[] [] [] [] [] [] [] []].

Lemma lower_char_idem (c : ascii) : lower_char (lower_char c) = lower_char c.
Proof. each_char c; reflexivity. Qed.

Lemma lower_char_space (c : ascii) : is_space (lower_char c) = is_space c.
Proof. each_char c; reflexivity. Qed.

Lemma lower_char_ascii (c : ascii) :
  is_ascii c = true -> is_ascii (lower_char c) = true.
Proof. each_char c; intros H; try reflexivity; discriminate H. Qed.

(** Lower-casing the upper-case form of a lower-case character gives the
    character back, when that form is one character of the alphabet. *)
Lemma lower_upper_char (c : ascii) :
  lower_char c = c -> wide_upper c = false ->
  toLowerCase (upper_char c) = String c "".
Proof.
  each_char c; intros H1 H2; try reflexivity;
    solve [discriminate H1 | discriminate H2].
Qed.

Lemma ascii_not_wide (c : ascii) :
  is_ascii c = true -> wide_upper c = false.
Proof. each_char c; intros H; try reflexivity; discriminate H. Qed.

End Characters.

Section Strings.
Import JS.

Lemma append_empty_r (s : string) : (s ++ "")%string = s.
Proof. induction s as [|c s IH]; simpl; [reflexivity | now rewrite IH]. Qed.

Lemma append_assoc (a b c : string) :
  ((a ++ b) ++ c)%string = (a ++ (b ++ c))%string.
Proof. induction a as [|x a IH]; simpl; [reflexivity | now rewrite IH]. Qed.

Lemma map_chars_app (f : ascii -> ascii) (a b : string) :
  map_chars f (a ++ b) = (map_chars f a ++ map_chars f b)%string.
Proof. induction a as [|x a IH]; simpl; [reflexivity | now rewrite IH]. Qed.

Lemma toLowerCase_idem (s : string) :
  toLowerCase (toLowerCase s) = toLowerCase s.
Proof.
  unfold toLowerCase. induction s as [|c s IH]; simpl; [reflexivity|].
  now rewrite lower_char_idem, IH.
Qed.

(** *** Splitting on white space *)

Lemma split_ws_cons (s : string) : exists p r, split_ws s = p :: r.
Proof.
  induction s as [|c s (p & r & IH)]; simpl.
  - now exists "", [].
  - destruct (is_space c).
    + destruct (starts_with is_space s); rewrite IH; eauto.
    + rewrite IH. eauto.
Qed.

Lemma split_ws_not_nil (s : string) : split_ws s <> [].
Proof. destruct (split_ws_cons s) as (p & r & H). now rewrite H. Qed.

Lemma split_ws_leading (s : string) :
  starts_with is_space s = true ->
  exists r, r <> [] /\ split_ws s = "" :: r.
Proof.
  induction s as [|c s IH]; simpl; [discriminate|].
  intros Hc. rewrite Hc.
  destruct (starts_with is_space s) eqn:Hs.
  - now apply IH.
  - exists (split_ws s). split; [apply split_ws_not_nil | reflexivity].
Qed.

Lemma split_ws_head_nonempty (s : string) :
  starts_with is_space s = false -> s <> "" ->
  exists c p r, split_ws s = String c p :: r.
Proof.
  destruct s as [|c s]; simpl; [congruence|].
  intros Hc _. rewrite Hc.
  destruct (split_ws_cons s) as (p & r & H). rewrite H. eauto.
Qed.

Lemma split_ws_no_space (s : string) : forallb no_space (split_ws s) = true.
Proof.
  induction s as [|c s IH]; simpl; [reflexivity|].
  destruct (is_space c) eqn:Hc.
  - destruct (starts_with is_space s); simpl; assumption.
  - destruct (split_ws s) as [|p r]; simpl in *.
    + unfold no_space; simpl. now rewrite Hc.
    + unfold no_space in *; simpl. now rewrite Hc.
Qed.

Lemma split_ws_inner (s : string) : inner_nonempty (tl (split_ws s)) = true.
Proof.
  induction s as [|c s IH]; simpl; [reflexivity|].
  destruct (is_space c) eqn:Hc.
  - destruct (starts_with is_space s) eqn:Hs; [assumption|]. simpl.
    destruct s as [|d s]; [reflexivity|].
    destruct (split_ws_head_nonempty (String d s) Hs) as (x & p & r & H);
      [discriminate|].
    rewrite H in *. simpl in IH. destruct r; [reflexivity|].
    simpl. exact IH.
  - destruct (split_ws s) as [|p r]; [reflexivity | exact IH].
Qed.

Lemma split_ws_pieces (s : string) : pieces (split_ws s).
Proof.
  repeat split;
    [apply split_ws_not_nil | apply split_ws_no_space | apply split_ws_inner].
Qed.

Lemma split_ws_app_no_space (w s : string) :
  no_space w = true ->
  split_ws (w ++ s) =
  match split_ws s with
  | p :: r => (w ++ p)%string :: r
  | [] => [w]
  end.
Proof.
  unfold no_space.
  induction w as [|c w IH]; simpl; intros H.
  - destruct (split_ws_cons s) as (p & r & E). now rewrite E.
  - apply andb_true_iff in H as [Hc Hw]. apply negb_true_iff in Hc.
    rewrite Hc, (IH Hw).
    destruct (split_ws_cons s) as (p & r & E). now rewrite E.
Qed.

Lemma split_ws_word (w : string) : no_space w = true -> split_ws w = [w].
Proof.
  intros H. rewrite <- (append_empty_r w) at 1.
  rewrite (split_ws_app_no_space w "" H). simpl. now rewrite append_empty_r.
Qed.

Lemma no_space_starts (w : string) :
  no_space w = true -> starts_with is_space w = false.
Proof.
  destruct w as [|c w]; [reflexivity|]. unfold no_space; simpl.
  intros H. apply andb_true_iff in H as [Hc _]. now apply negb_true_iff.
Qed.

Lemma starts_with_app (p : ascii -> bool) (w s : string) :
  w <> "" -> starts_with p (w ++ s) = starts_with p w.
Proof. destruct w; [congruence | reflexivity]. Qed.

(** Splitting what [join] made of non-empty words gives the words
    back; the last word may be empty. *)
Lemma split_ws_join_inner (ws : list string) :
  ws <> [] -> forallb no_space ws = true -> inner_nonempty ws = true ->
  split_ws (join_space ws) = ws /\
  starts_with is_space (join_space ws) = false.
Proof.
  unfold join_space.
  induction ws as [|w ws IH]; [congruence|]. intros _ Hns Hin.
  simpl in Hns. apply andb_true_iff in Hns as [Hw Hns].
  destruct ws as [|w2 ws].
  - simpl. split; [now apply split_ws_word | now apply no_space_starts].
  - change (inner_nonempty (w :: w2 :: ws))
      with (negb (String.eqb w "") && inner_nonempty (w2 :: ws)) in Hin.
    apply andb_true_iff in Hin as [Hne Hin].
    apply negb_true_iff, String.eqb_neq in Hne.
    destruct IH as [IH1 IH2]; [discriminate | assumption | assumption |].
    change (concat " " (w :: w2 :: ws))
      with (w ++ String " " (concat " " (w2 :: ws)))%string.
    split.
    + rewrite (split_ws_app_no_space _ _ Hw).
      change (split_ws (String " " (concat " " (w2 :: ws))))
        with (if starts_with is_space (concat " " (w2 :: ws))
              then split_ws (concat " " (w2 :: ws))
              else "" :: split_ws (concat " " (w2 :: ws))).
      rewrite IH2, IH1. now rewrite append_empty_r.
    + rewrite starts_with_app by assumption. now apply no_space_starts.
Qed.

(** [split_ws] undoes [join_space] on the lists it gives itself. *)
Lemma split_ws_join (ws : list string) :
  pieces ws -> split_ws (join_space ws) = ws.
Proof.
  intros (Hne & Hns & Hin).
  destruct ws as [|w ws]; [congruence|].
  destruct ws as [|w2 ws].
  - simpl in Hns. apply andb_true_iff in Hns as [Hw _].
    now apply split_ws_word.
  - simpl in Hns. apply andb_true_iff in Hns as [Hw Hns].
    destruct (split_ws_join_inner (w2 :: ws)) as [IH1 IH2];
      [discriminate | assumption | assumption |].
    unfold join_space in *.
    change (concat " " (w :: w2 :: ws))
      with (w ++ String " " (concat " " (w2 :: ws)))%string.
    rewrite (split_ws_app_no_space _ _ Hw).
    change (split_ws (String " " (concat " " (w2 :: ws))))
      with (if starts_with is_space (concat " " (w2 :: ws))
            then split_ws (concat " " (w2 :: ws))
            else "" :: split_ws (concat " " (w2 :: ws))).
    rewrite IH2, IH1. now rewrite append_empty_r.
Qed.

Lemma split_ws_trailing (s : string) :
  ends_with_space s = true ->
  exists init, init <> [] /\ split_ws s = init ++ [""].
Proof.
  induction s as [|c s IH]; [discriminate|].
  destruct s as [|d s].
  - simpl. intros Hc. rewrite Hc. now exists [""].
  - intros H. change (ends_with_space (String d s) = true) in H.
    destruct (IH H) as (init & Hne & E).
    change (split_ws (String c (String d s)))
      with (if is_space c then
              if starts_with is_space (String d s)
              then split_ws (String d s) else "" :: split_ws (String d s)
            else match split_ws (String d s) with
                 | p :: r => String c p :: r
                 | [] => [String c ""]
                 end).
    rewrite E. destruct (is_space c).
    + destruct (starts_with is_space (String d s)).
      * now exists init.
      * now exists ("" :: init).
    + destruct init as [|p i]; [congruence|]. simpl.
      now exists (String c p :: i).
Qed.

End Strings.

(* ================================================================== *)
(** * Title Case Converter *)
(* ================================================================== *)

Section TitleCaseFacts.
Import JS TitleCase.

Lemma mapi_from_length {A B : Type} (f : A -> Z -> B) (k : Z) (l : list A) :
  List.length (mapi_from f k l) = List.length l.
Proof.
  revert k. induction l as [|x l IH]; intros k; simpl;
    [reflexivity | now rewrite IH].
Qed.

Lemma mapi_from_app {A B : Type} (f : A -> Z -> B) (k : Z) (l1 l2 : list A) :
  mapi_from f k (l1 ++ l2) =
  mapi_from f k l1 ++ mapi_from f (k + Z.of_nat (List.length l1))%Z l2.
Proof.
  revert k. induction l1 as [|x l1 IH]; intros k.
  - simpl. now rewrite Z.add_0_r.
  - cbn [app mapi_from List.length]. rewrite IH. do 3 f_equal. lia.
Qed.

Lemma mapi_from_nth {A B : Type} (f : A -> Z -> B) (k : Z) (l : list A)
      (i : nat) (x : A) :
  nth_error l i = Some x ->
  nth_error (mapi_from f k l) i = Some (f x (k + Z.of_nat i)%Z).
Proof.
  revert k i. induction l as [|y l IH]; intros k i H.
  - destruct i; discriminate H.
  - destruct i as [|i]; simpl in *.
    + injection H as ->. now rewrite Z.add_0_r.
    + rewrite (IH _ _ H). do 2 f_equal. lia.
Qed.

(** Away from the two ends a stop word is returned as it is. *)
Lemma mapi_from_interior (n k : Z) (l : list string) :
  (0 < k)%Z -> (k + Z.of_nat (List.length l) < n)%Z ->
  Forall (fun w => has stopWords w = true) l ->
  mapi_from (convertWord n) k l = l.
Proof.
  revert k. induction l as [|w l IH]; intros k Hk Hn Hst; [reflexivity|].
  inversion Hst as [|? ? Hw Hl]; subst.
  cbn [mapi_from List.length] in *. rewrite IH by (assumption || lia).
  unfold convertWord. rewrite Hw.
  replace (k =? 0)%Z with false by (symmetry; apply Z.eqb_neq; lia).
  replace (k =? n - 1)%Z with false by (symmetry; apply Z.eqb_neq; lia).
  reflexivity.
Qed.

Lemma lowered_toLowerCase (s : string) : lowered (toLowerCase s) = true.
Proof.
  unfold lowered, toLowerCase. induction s as [|c s IH]; simpl;
    [reflexivity|].
  now rewrite lower_char_idem, Ascii.eqb_refl, IH.
Qed.

Lemma lowered_fixed (w : string) : lowered w = true -> toLowerCase w = w.
Proof.
  unfold lowered, toLowerCase. induction w as [|c w IH]; simpl;
    [reflexivity|].
  intros H. apply andb_true_iff in H as [Hc Hw].
  apply Ascii.eqb_eq in Hc. now rewrite Hc, IH.
Qed.

Lemma split_ws_all_chars (p : ascii -> bool) (s : string) :
  all_chars p s = true -> forallb (all_chars p) (split_ws s) = true.
Proof.
  induction s as [|c s IH]; simpl; [reflexivity|].
  intros H. apply andb_true_iff in H as [Hc Hs]. specialize (IH Hs).
  destruct (is_space c).
  - destruct (starts_with is_space s); simpl; assumption.
  - destruct (split_ws s) as [|q r]; simpl in *.
    + now rewrite Hc.
    + now rewrite Hc.
Qed.

Lemma words_lowered (text : string) :
  forallb lowered (words text) = true.
Proof. apply split_ws_all_chars, lowered_toLowerCase. Qed.

Lemma capitalize_cons (c : ascii) (s : string) :
  capitalize (String c s) = (upper_char c ++ s)%string.
Proof. unfold capitalize. simpl. now rewrite append_empty_r. Qed.

Lemma toLowerCase_capitalize (w : string) :
  lowered w = true -> wide_initial w = false ->
  toLowerCase (capitalize w) = w.
Proof.
  destruct w as [|c w]; [reflexivity|].
  unfold lowered, wide_initial. simpl. intros H Hs.
  apply andb_true_iff in H as [Hc Hw]. apply Ascii.eqb_eq in Hc.
  rewrite capitalize_cons. unfold toLowerCase. rewrite map_chars_app.
  fold (toLowerCase (upper_char c)). rewrite (lower_upper_char c Hc Hs).
  fold (toLowerCase w). now rewrite (lowered_fixed w Hw).
Qed.

Lemma toLowerCase_convertWord (n i : Z) (w : string) :
  lowered w = true -> wide_initial w = false ->
  toLowerCase (convertWord n w i) = w.
Proof.
  intros Hl Hs. unfold convertWord.
  destruct ((i =? 0)%Z || (i =? n - 1)%Z);
    [now apply toLowerCase_capitalize|].
  destruct (has stopWords w);
    [now apply lowered_fixed | now apply toLowerCase_capitalize].
Qed.

Lemma toLowerCase_join (ws : list string) :
  toLowerCase (join_space ws) = join_space (map toLowerCase ws).
Proof.
  unfold join_space, toLowerCase.
  induction ws as [|w ws IH]; [reflexivity|].
  destruct ws as [|w2 ws]; [reflexivity|].
  change (concat " " (w :: w2 :: ws))
    with (w ++ String " " (concat " " (w2 :: ws)))%string.
  rewrite map_chars_app. cbn [map_chars]. rewrite IH. reflexivity.
Qed.

Lemma lower_mapi_from (n k : Z) (ws : list string) :
  forallb lowered ws = true ->
  forallb (fun w => negb (wide_initial w)) ws = true ->
  map toLowerCase (mapi_from (convertWord n) k ws) = ws.
Proof.
  revert k. induction ws as [|w ws IH]; intros k Hl Hs; [reflexivity|].
  simpl in Hl, Hs. apply andb_true_iff in Hl as [Hw Hl].
  apply andb_true_iff in Hs as [Hsw Hs]. apply negb_true_iff in Hsw.
  cbn [mapi_from map]. now rewrite toLowerCase_convertWord, IH.
Qed.


Lemma ascii_words_not_wide (text : string) :
  all_chars is_ascii text = true ->
  forallb (fun w => negb (wide_initial w)) (words text) = true.
Proof.
  intros H.
  assert (Ha : all_chars is_ascii (toLowerCase text) = true).
  { unfold toLowerCase. induction text as [|c t IH]; [reflexivity|].
    simpl in *. apply andb_true_iff in H as [Hc Ht].
    now rewrite (lower_char_ascii c Hc), IH. }
  apply (split_ws_all_chars is_ascii) in Ha. fold (words text) in Ha.
  rewrite forallb_forall in *. intros w Hw. specialize (Ha w Hw).
  destruct w as [|c w]; [reflexivity|]. unfold wide_initial. simpl in *.
  apply andb_true_iff in Ha as [Hc _].
  now rewrite (ascii_not_wide c Hc).
Qed.

End TitleCaseFacts.

Section TitleCaseClaims.
Import JS TitleCase.

(** C4. The words of the text are those of the lower-cased text; the
    converted words are as many; the word at index 0 and the word at
    index n-1 are capitalized whatever they are, every other stop word is
    left as it is and every other word is capitalized, where to
    capitalize is to put the upper-case form of the first character in
    front of the unchanged rest; the result joins the converted words
    with single spaces.  So when every word between the first and the
    last is a stop word, only the first and the last are capitalized. *)
Theorem title_case_rule (text : string) :
  let ws := words text in
  let n := List.length ws in
  ws = split_ws (toLowerCase text)
  /\ Forall (fun w => toLowerCase w = w) ws
  /\ List.length (convertedWords text) = n
  /\ (forall i w, nth_error ws i = Some w ->
        nth_error (convertedWords text) i =
        Some (if (i =? 0) || (i =? n - 1) then capitalize w
              else if has stopWords w then w
              else capitalize w))
  /\ (forall c s, capitalize (String c s)
                  = (toUpperCase (String c "") ++ s)%string)
  /\ converted text = String.concat " " (convertedWords text)
  /\ (forall first interior last,
        ws = first :: interior ++ [last] ->
        Forall (fun w => has stopWords w = true) interior ->
        converted text =
        String.concat " " (capitalize first :: interior ++ [capitalize last])).
Proof.
  intros ws n. repeat split.
  - apply Forall_forall. intros w Hw. apply lowered_fixed.
    pose proof (words_lowered text) as H.
    rewrite forallb_forall in H. now apply H.
  - unfold convertedWords, mapi. apply mapi_from_length.
  - intros i w Hi. unfold convertedWords, mapi.
    rewrite (mapi_from_nth _ _ _ _ _ Hi). f_equal.
    assert (i < n) by (apply nth_error_Some; fold ws; congruence).
    unfold convertWord. fold ws. fold n. rewrite Z.add_0_l.
    replace (Z.of_nat i =? 0)%Z with (i =? 0)
      by (destruct (Nat.eqb_spec i 0); symmetry;
          [apply Z.eqb_eq | apply Z.eqb_neq]; lia).
    replace (Z.of_nat i =? Z.of_nat n - 1)%Z with (i =? n - 1)
      by (destruct (Nat.eqb_spec i (n - 1)); symmetry;
          [apply Z.eqb_eq | apply Z.eqb_neq]; lia).
    reflexivity.
  - intros first interior last E Hst.
    unfold converted, join_space, convertedWords, mapi. fold ws. rewrite E.
    f_equal. cbn [mapi_from]. rewrite mapi_from_app.
    rewrite (mapi_from_interior _ _ interior); try assumption; try lia.
    + cbn [mapi_from]. unfold convertWord at 1. cbn [Z.eqb orb].
      f_equal. f_equal. f_equal. unfold convertWord.
      replace (0 + 1 + Z.of_nat (List.length interior) =?
               Z.of_nat (List.length (first :: interior ++ [last])) - 1)%Z
        with true; [now rewrite orb_true_r|].
      symmetry. apply Z.eqb_eq. cbn [List.length].
      rewrite length_app. cbn [List.length]. lia.
    + cbn [List.length]. rewrite length_app. cbn [List.length]. lia.
Qed.

Lemma title_case_rule_witness :
  converted "lord of the rings" = "Lord of the Rings".
Proof.
  destruct (title_case_rule "lord of the rings")
    as (_ & _ & _ & _ & _ & _ & H).
  rewrite (H "lord" ["of"; "the"] "rings").
  - reflexivity.
  - reflexivity.
  - repeat constructor.
Defined.

(** C9. Whatever the text, the response carries the same list of four
    rule descriptions. *)
Theorem rules_applied_fixed (text : string) (r : TitleCaseResponse) :
  titleCase text = Some r ->
  tc_rulesApplied r =
  [ "Capitalized major words (nouns, verbs, adjectives)";
    "Kept articles lowercase (a, an, the)";
    "Kept prepositions lowercase (for, to, in, of, etc.)";
    "Capitalized first and last words" ]
  /\ List.length (tc_rulesApplied r) = 4.
Proof.
  unfold titleCase. destruct (titleCaseRequestSchema text); [|discriminate].
  intros H. injection H as <-. split; reflexivity.
Qed.

Lemma rules_applied_fixed_witness :
  let r := {| original := "war and peace";
              tc_converted := "War and Peace";
              tc_rulesApplied := rulesApplied |} in
  titleCase "war and peace" = Some r
  /\ List.length (tc_rulesApplied r) = 4.
Proof.
  intros r. split; [reflexivity|].
  apply (rules_applied_fixed "war and peace" r). reflexivity.
Defined.




(** C10, as stated, fails: in the text made of a space and the stop word
    "the", the stop word is the first real word of a text that begins
    with white space, and it is capitalized, being the last piece. *)
Lemma leading_space_stop_word_capitalized :
  ~ (forall text w rest,
       starts_with is_space text = true ->
       words text = "" :: w :: rest ->
       has stopWords w = true ->
       exists cs, convertedWords text = "" :: w :: cs).
Proof.
  intros H.
  destruct (H " the" "the" []) as (cs & E); try reflexivity.
  discriminate E.
Qed.

(** C10, amended. A text that begins (ends) with white space has an
    empty first (last) word, which takes the capitalization of the first
    (last) word, and its converted text begins (ends) with a space.  A
    stop word that is the first real word of a text beginning with white
    space stays lower-case when a further piece follows it; a stop word
    that is the last real word of a text ending with white space stays
    lower-case when a further piece precedes it. *)
Theorem title_case_outer_space (text : string) :
  (starts_with is_space text = true ->
     exists rest cs tail,
       rest <> []
       /\ words text = "" :: rest
       /\ convertedWords text = "" :: cs
       /\ converted text = String " " tail)
  /\ (ends_with_space text = true ->
     exists init cs front,
       init <> []
       /\ words text = init ++ [""]
       /\ convertedWords text = cs ++ [""]
       /\ converted text = (front ++ " ")%string)
  /\ (forall w rest,
       words text = "" :: w :: rest -> rest <> [] ->
       has stopWords w = true ->
       exists cs, convertedWords text = "" :: w :: cs)
  /\ (forall init w,
       words text = init ++ [w; ""] -> init <> [] ->
       has stopWords w = true ->
       exists cs, convertedWords text = cs ++ [w; ""]
                  /\ List.length cs = List.length init).
Proof.
  repeat split.
  - intros Hs.
    assert (Hl : starts_with is_space (toLowerCase text) = true).
    { destruct text as [|c t]; [discriminate|]. simpl in *.
      now rewrite lower_char_space. }
    destruct (split_ws_leading _ Hl) as (rest & Hne & E).
    fold (words text) in E.
    unfold converted, convertedWords, mapi, join_space. rewrite E.
    cbn [mapi_from]. destruct rest as [|w rest]; [congruence|].
    cbn [mapi_from]. unfold convertWord at 1. cbn [Z.eqb orb].
    eexists (w :: rest), _, _. repeat split. discriminate.
  - intros Hs.
    assert (Hl : ends_with_space (toLowerCase text) = true).
    { clear -Hs. induction text as [|c t IH]; [discriminate|].
      destruct t as [|d t].
      - simpl in *. now rewrite lower_char_space.
      - apply IH. exact Hs. }
    destruct (split_ws_trailing _ Hl) as (init & Hne & E).
    fold (words text) in E.
    unfold converted, convertedWords, mapi, join_space. rewrite E.
    rewrite mapi_from_app. cbn [mapi_from].
    assert (Hc : convertWord (Z.of_nat (List.length (init ++ [""]))) ""
                   (0 + Z.of_nat (List.length init)) = "").
    { unfold convertWord.
      replace (0 + Z.of_nat (List.length init) =?
               Z.of_nat (List.length (init ++ [""])) - 1)%Z with true.
      - now rewrite orb_true_r.
      - symmetry. apply Z.eqb_eq. rewrite length_app. cbn [List.length].
        lia. }
    rewrite Hc. clear Hc.
    set (cs := mapi_from _ 0%Z init).
    assert (Hcs : cs <> []).
    { intros Hcs. apply (f_equal (@List.length string)) in Hcs.
      unfold cs in Hcs. rewrite mapi_from_length in Hcs.
      destruct init; [congruence | discriminate Hcs]. }
    exists init, cs, (concat " " cs). repeat split; try assumption.
    clear -Hcs. induction cs as [|c cs IH]; [congruence|].
    destruct cs as [|c2 cs].
    + reflexivity.
    + change (concat " " ((c :: c2 :: cs) ++ [""]))
        with (c ++ String " " (concat " " ((c2 :: cs) ++ [""])))%string.
      rewrite IH by discriminate.
      change (concat " " (c :: c2 :: cs))
        with (c ++ String " " (concat " " (c2 :: cs)))%string.
      now rewrite append_assoc.
  - intros w rest E Hne Hw.
    unfold convertedWords, mapi. rewrite E.
    destruct rest as [|w2 rest]; [congruence|].
    cbn [mapi_from]. unfold convertWord at 1. cbn [Z.eqb orb].
    unfold convertWord at 1. rewrite Hw.
    replace (0 + 1 =? 0)%Z with false by reflexivity.
    replace (0 + 1 =? Z.of_nat (List.length ("" :: w :: w2 :: rest)) - 1)%Z
      with false.
    + cbn [orb capitalize]. eexists. reflexivity.
    + symmetry. apply Z.eqb_neq. cbn [List.length]. lia.
  - intros init w E Hne Hw.
    unfold convertedWords, mapi. rewrite E.
    rewrite mapi_from_app. cbn [mapi_from].
    exists (mapi_from
              (convertWord (Z.of_nat (List.length (init ++ [w; ""]))))
              0%Z init).
    split; [|apply mapi_from_length].
    f_equal. rewrite length_app. cbn [List.length].
    assert (0 < List.length init) by (destruct init; simpl; [congruence|lia]).
    f_equal.
    + unfold convertWord. rewrite Hw.
      replace (0 + Z.of_nat (List.length init) =? 0)%Z with false
        by (symmetry; apply Z.eqb_neq; lia).
      replace (0 + Z.of_nat (List.length init) =?
               Z.of_nat (List.length init + 2) - 1)%Z with false
        by (symmetry; apply Z.eqb_neq; lia).
      reflexivity.
    + f_equal. unfold convertWord.
      replace (0 + Z.of_nat (List.length init) + 1 =?
               Z.of_nat (List.length init + 2) - 1)%Z with true
        by (symmetry; apply Z.eqb_eq; lia).
      now rewrite orb_true_r.
Qed.

Lemma title_case_outer_space_witness :
  let text := " the cat sat on " in
  convertedWords text = [""; "the"; "Cat"; "Sat"; "on"; ""]
  /\ (exists cs, convertedWords text = "" :: "the" :: cs)
  /\ (exists cs, convertedWords text = cs ++ ["on"; ""]
                 /\ List.length cs = 4).
Proof.
  intros text.
  destruct (title_case_outer_space text) as (_ & _ & H3 & H4).
  split; [reflexivity|]. split.
  - apply (H3 "the" ["cat"; "sat"; "on"; ""]);
      [reflexivity | discriminate | reflexivity].
  - apply (H4 [""; "the"; "cat"; "sat"] "on");
      [reflexivity | discriminate | reflexivity].
Defined.

End TitleCaseClaims.

(* ================================================================== *)
(** * Keyword Density Analyzer *)
(* ================================================================== *)

Section KeywordDensityFacts.
Import JS KeywordDensity.

Lemma sumValues_count (m : list (string * nat)) (w : string) :
  sumValues (map_set w (get_or_zero (map_get m w) + 1) m) = sumValues m + 1.
Proof.
  unfold sumValues. induction m as [|[k v] m IH]; simpl; [reflexivity|].
  destruct (String.eqb k w); simpl; [lia | rewrite IH; lia].
Qed.

Lemma sumValues_fold (ws : list string) (m : list (string * nat)) :
  sumValues
    (fold_left
       (fun wordCount word =>
          map_set word (get_or_zero (map_get wordCount word) + 1) wordCount)
       ws m)
  = sumValues m + List.length ws.
Proof.
  revert m. induction ws as [|w ws IH]; intros m; simpl; [lia|].
  rewrite IH, sumValues_count. lia.
Qed.

Lemma sumValues_countWords (ws : list string) :
  sumValues (countWords ws) = List.length ws.
Proof. unfold countWords. now rewrite sumValues_fold. Qed.

(** *** The word-count map *)

Lemma map_get_set_same (k : string) (v : nat) (m : list (string * nat)) :
  map_get (map_set k v m) k = Some v.
Proof.
  induction m as [|[k' v'] m IH]; simpl.
  - now rewrite String.eqb_refl.
  - destruct (String.eqb k' k) eqn:E; simpl; now rewrite E.
Qed.

Lemma map_get_set_other (k k' : string) (v : nat) (m : list (string * nat)) :
  k <> k' -> map_get (map_set k v m) k' = map_get m k'.
Proof.
  intros Hne. induction m as [|[k0 v0] m IH]; simpl.
  - apply String.eqb_neq in Hne. now rewrite Hne.
  - destruct (String.eqb k0 k) eqn:E; simpl.
    + apply String.eqb_eq in E. subst k0.
      apply String.eqb_neq in Hne. now rewrite Hne.
    + now rewrite IH.
Qed.

Lemma map_set_keys (k : string) (v : nat) (m : list (string * nat)) :
  map fst (map_set k v m)
  = if existsb (String.eqb k) (map fst m) then map fst m
    else map fst m ++ [k].
Proof.
  induction m as [|[k' v'] m IH]; simpl; [reflexivity|].
  rewrite (String.eqb_sym k k').
  destruct (String.eqb k' k); simpl; [reflexivity|].
  rewrite IH. now destruct (existsb (String.eqb k) (map fst m)).
Qed.

Lemma map_set_NoDup (k : string) (v : nat) (m : list (string * nat)) :
  NoDup (map fst m) -> NoDup (map fst (map_set k v m)).
Proof.
  intros H. rewrite map_set_keys.
  destruct (existsb (String.eqb k) (map fst m)) eqn:E; [assumption|].
  apply NoDup_app; [assumption | repeat constructor; intros [] |].
  intros x Hx [Hk|[]]. subst x.
  assert (Ht : existsb (String.eqb k) (map fst m) = true).
  { apply existsb_exists. exists k. now rewrite String.eqb_refl. }
  congruence.
Qed.

(** The count of a word in the map is the number of its occurrences,
    and no word has two entries. *)
Lemma countWords_fold (ws : list string) (m : list (string * nat))
      (w : string) :
  let m' := fold_left
              (fun wordCount word =>
                 map_set word (get_or_zero (map_get wordCount word) + 1)
                   wordCount)
              ws m in
  get_or_zero (map_get m' w)
  = get_or_zero (map_get m w) + count_occ string_dec ws w
  /\ (NoDup (map fst m) -> NoDup (map fst m')).
Proof.
  revert m. induction ws as [|x ws IH]; intros m; cbn [fold_left count_occ].
  - split; [lia | auto].
  - destruct (IH (map_set x (get_or_zero (map_get m x) + 1) m)) as [IH1 IH2].
    split.
    + rewrite IH1. destruct (string_dec x w) as [->|Hne].
      * rewrite map_get_set_same. simpl. lia.
      * now rewrite map_get_set_other.
    + intros H. now apply IH2, map_set_NoDup.
Qed.

Lemma countWords_count (ws : list string) (w : string) :
  get_or_zero (map_get (countWords ws) w) = count_occ string_dec ws w.
Proof. exact (proj1 (countWords_fold ws [] w)). Qed.

Lemma countWords_NoDup (ws : list string) :
  NoDup (map fst (countWords ws)).
Proof. apply (proj2 (countWords_fold ws [] "")). constructor. Qed.

Lemma frequency_stat (t : nat) (e : string * nat) :
  frequency (stat t e) = snd e.
Proof. now destruct e. Qed.

Lemma sumFrequency_stats (t : nat) (m : list (string * nat)) :
  sumFrequency (map (stat t) m) = sumValues m.
Proof.
  unfold sumFrequency, sumValues. rewrite map_map. f_equal.
  apply map_ext. apply frequency_stat.
Qed.

(** *** The sort *)

Lemma insert_by_perm {A : Type} (cmp : A -> A -> Z) (x : A) (l : list A) :
  Permutation (insert_by cmp x l) (x :: l).
Proof.
  induction l as [|y l IH]; simpl; [reflexivity|].
  destruct (cmp x y <=? 0)%Z; [reflexivity|].
  rewrite IH. apply perm_swap.
Qed.

Lemma sort_perm {A : Type} (cmp : A -> A -> Z) (l : list A) :
  Permutation (sort cmp l) l.
Proof.
  induction l as [|x l IH]; simpl; [reflexivity|].
  rewrite insert_by_perm. now constructor.
Qed.

Lemma insert_by_sorted (x : KeywordStat) (l : list KeywordStat) :
  StronglySorted notBelow l ->
  StronglySorted notBelow (insert_by byFrequency x l).
Proof.
  induction 1 as [|y l Hl IH Hy]; simpl; [repeat constructor|].
  unfold byFrequency at 1.
  destruct (Z.leb_spec (Z.of_nat (frequency y) - Z.of_nat (frequency x)) 0).
  - constructor; [now constructor|].
    assert (Hxy : notBelow x y) by (unfold notBelow; lia).
    constructor; [assumption|].
    eapply Forall_impl; [|exact Hy]. unfold notBelow in *. intros; lia.
  - constructor; [assumption|].
    rewrite (insert_by_perm byFrequency x l).
    constructor; [unfold notBelow; lia | assumption].
Qed.

Lemma sort_sorted (l : list KeywordStat) :
  StronglySorted notBelow (sort byFrequency l).
Proof.
  induction l as [|x l IH]; simpl; [constructor|].
  now apply insert_by_sorted.
Qed.

(** The elements of one frequency keep their order. *)
Lemma insert_by_stable (f : nat) (x : KeywordStat) (l : list KeywordStat) :
  filter (fun k => frequency k =? f) (insert_by byFrequency x l)
  = filter (fun k => frequency k =? f) (x :: l).
Proof.
  induction l as [|y l IH]; [reflexivity|].
  cbn [insert_by]. unfold byFrequency at 1.
  destruct (Z.leb_spec (Z.of_nat (frequency y) - Z.of_nat (frequency x)) 0);
    [reflexivity|].
  cbn [filter] in *. rewrite IH.
  destruct (Nat.eqb_spec (frequency x) f), (Nat.eqb_spec (frequency y) f);
    try reflexivity. lia.
Qed.

Lemma sort_stable (f : nat) (l : list KeywordStat) :
  filter (fun k => frequency k =? f) (sort byFrequency l)
  = filter (fun k => frequency k =? f) l.
Proof.
  induction l as [|x l IH]; [reflexivity|].
  cbn [sort fold_right]. rewrite insert_by_stable.
  cbn [filter]. fold (sort byFrequency l). now rewrite IH.
Qed.

Lemma firstn_sorted (n : nat) (l : list KeywordStat) :
  StronglySorted notBelow l -> StronglySorted notBelow (firstn n l).
Proof.
  intros H. revert n. induction H as [|x l Hl IH Hx]; intros n.
  - rewrite firstn_nil. constructor.
  - destruct n; simpl; constructor; [apply IH|].
    rewrite Forall_forall in *. intros y Hy. apply Hx.
    rewrite <- (firstn_skipn n l). apply in_or_app. now left.
Qed.

End KeywordDensityFacts.

Section KeywordDensityClaims.
Import JS KeywordDensity.

(** C1. The statistics before the cut to twenty are those of distinct
    words, and their frequencies, before and after the sort, sum to
    [totalWords], the number of words left once the content is
    lower-cased, every character that is neither a word character nor
    white space is replaced by a space, the text is split on runs of
    white space and the words of length two or less are dropped. *)
Theorem frequencies_sum_to_totalWords (content : string) :
  totalWords (analyze content)
  = List.length
      (filter (fun word => 2 <? String.length word)
         (split_ws (map_chars clean_char (toLowerCase content))))
  /\ sumValues (countWords (words content)) = totalWords (analyze content)
  /\ NoDup (map word (allStats content))
  /\ sumFrequency (allStats content) = totalWords (analyze content)
  /\ sumFrequency (sortedStats content) = totalWords (analyze content)
  /\ keywords (analyze content) = firstn 20 (sortedStats content).
Proof.
  split; [reflexivity|]. split; [apply sumValues_countWords|].
  split.
  { unfold allStats. rewrite map_map.
    rewrite (map_ext _ fst); [apply countWords_NoDup | now intros [w f]]. }
  assert (H : sumFrequency (allStats content)
              = totalWords (analyze content)).
  { unfold allStats. rewrite sumFrequency_stats. apply sumValues_countWords. }
  split; [exact H|]. split; [|reflexivity].
  rewrite <- H. unfold sumFrequency, sortedStats.
  apply Permutation_list_sum, Permutation_map, sort_perm.
Qed.

(** C7. The keyword list holds at most twenty statistics, in
    non-increasing order of frequency: it is the first twenty of the
    sorted list of all the statistics, which is a permutation of the
    list in the order of the word-count map where the statistics of any
    one frequency keep the order they have in the map. *)
Theorem keywords_top_twenty_sorted (content : string) :
  List.length (keywords (analyze content)) <= 20
  /\ StronglySorted (fun a b => frequency b <= frequency a)
       (keywords (analyze content))
  /\ keywords (analyze content) = firstn 20 (sortedStats content)
  /\ Permutation (sortedStats content) (allStats content)
  /\ (forall f,
        filter (fun k => frequency k =? f) (sortedStats content)
        = filter (fun k => frequency k =? f) (allStats content))
  /\ map word (allStats content) = map fst (countWords (words content)).
Proof.
  split; [apply firstn_le_length|].
  split; [apply firstn_sorted, sort_sorted|].
  split; [reflexivity|].
  split; [apply sort_perm|].
  split; [intros f; apply sort_stable|].
  unfold allStats. rewrite map_map. apply map_ext. now intros [w f].
Qed.

Lemma Qltb_lt (x y : Q) : Qltb x y = true <-> (x < y)%Q.
Proof.
  unfold Qltb. rewrite negb_true_iff. split.
  - intros H. apply Qnot_le_lt. intros Hle.
    apply Qle_bool_iff in Hle. congruence.
  - intros H. destruct (Qle_bool y x) eqn:E; [|reflexivity].
    apply Qle_bool_iff in E. exfalso. now apply (Qlt_not_le x y).
Qed.

Lemma Qltb_ge (x y : Q) : Qltb x y = false <-> (y <= x)%Q.
Proof.
  unfold Qltb. rewrite negb_false_iff. apply Qle_bool_iff.
Qed.

(** Rounding to hundredths does not cross an integer. *)
Lemma round_hundredths_below (q : Q) (c : Z) :
  (q < inject_Z c)%Q -> (round_hundredths q <= inject_Z c)%Q.
Proof.
  intros H. unfold round_hundredths.
  assert (Hf := Qfloor_le (q * 100 + (1 # 2))).
  set (n := Qfloor (q * 100 + (1 # 2))) in *.
  assert (Hlt : (inject_Z n < inject_Z (100 * c + 1))%Q).
  { rewrite inject_Z_plus, inject_Z_mult.
    change (inject_Z 100) with 100%Q. change (inject_Z 1) with 1%Q. lra. }
  rewrite <- Zlt_Qlt in Hlt.
  unfold Qle. cbn [Qnum Qden inject_Z]. lia.
Qed.
Lemma round_hundredths_above (q : Q) (c : Z) :
  (inject_Z c <= q)%Q -> (inject_Z c <= round_hundredths q)%Q.
Proof.
  intros H. unfold round_hundredths.
  assert (Hf := Qlt_floor (q * 100 + (1 # 2))).
  set (n := Qfloor (q * 100 + (1 # 2))) in *.
  assert (Hlt : (inject_Z (100 * c) < inject_Z (n + 1))%Q).
  { rewrite inject_Z_mult. change (inject_Z 100) with 100%Q. lra. }
  rewrite <- Zlt_Qlt in Hlt.
  unfold Qle. cbn [Qnum Qden inject_Z]. lia.
Qed.

Lemma toFixed2_below (q : Q) (c : Z) :
  (0 <= q)%Q -> (q < inject_Z c)%Q -> (toFixed2 q <= inject_Z c)%Q.
Proof.
  intros H0 H. unfold toFixed2.
  destruct (Qle_bool (10 ^ 21) (Qabs q)); [lra|].
  replace (Qltb q 0) with false by (symmetry; now apply Qltb_ge).
  now apply round_hundredths_below.
Qed.

Lemma toFixed2_above (q : Q) (c : Z) :
  (0 <= q)%Q -> (inject_Z c <= q)%Q -> (inject_Z c <= toFixed2 q)%Q.
Proof.
  intros H0 H. unfold toFixed2.
  destruct (Qle_bool (10 ^ 21) (Qabs q)); [lra|].
  replace (Qltb q 0) with false by (symmetry; now apply Qltb_ge).
  now apply round_hundredths_above.
Qed.

Lemma countWords_nil_inv (ws : list string) :
  countWords ws <> [] -> 0 < List.length ws.
Proof. destruct ws; cbn; [congruence | lia]. Qed.

Lemma in_keywords (content : string) (k : KeywordStat) :
  In k (keywords (analyze content)) ->
  exists e, In e (countWords (words content))
            /\ k = stat (List.length (words content)) e.
Proof.
  cbn [analyze keywords]. intros H.
  assert (Hs : In k (sortedStats content)).
  { rewrite <- (firstn_skipn 20 (sortedStats content)).
    apply in_or_app. now left. }
  apply (Permutation_in _ (sort_perm _ _)) in Hs.
  unfold allStats in Hs. apply in_map_iff in Hs as (e & E & He).
  eauto.
Qed.

Lemma rawDensity_fin (t f : nat) :
  0 < t ->
  rawDensity t f
  = Fin (inject_Z (Z.of_nat f) / inject_Z (Z.of_nat t) * 100)%Q.
Proof.
  intros Ht. unfold rawDensity, of_nat, div, mul.
  destruct (Qeq_bool (inject_Z (Z.of_nat t)) 0) eqn:E; [|reflexivity].
  apply Qeq_bool_iff in E. unfold Qeq in E. simpl in E. lia.
Qed.

(** C2, as stated, fails: in [content201] the word "seo" has the density
    200/201.  It is labelled low, and the density returned for it is
    1.00, which is in the band of good. *)
Lemma rounded_density_leaves_band :
  let k := {| word := "seo"; frequency := 2;
              density := Fin (100 # 100); status := low |} in
  keywordDensityRequestSchema content201 = true
  /\ totalWords (analyze content201) = 201
  /\ hd_error (keywords (analyze content201)) = Some k
  /\ lt (density k) (Fin 1) = false
  /\ classify (density k) = good
  /\ ~ (forall content k',
          In k' (keywords (analyze content)) ->
          status k' = classify (density k')).
Proof.
  intros k.
  assert (H : hd_error (keywords (analyze content201)) = Some k)
    by (vm_compute; reflexivity).
  repeat split; try (vm_compute; reflexivity).
  intros Hall. specialize (Hall content201 k).
  assert (Hin : In k (keywords (analyze content201))).
  { destruct (keywords (analyze content201)) as [|k0 ks];
      [discriminate H|].
    injection H as ->. now left. }
  specialize (Hall Hin). discriminate Hall.
Qed.

(** C2, amended. The status of a returned keyword is the band of its
    density before rounding, 100 * frequency / totalWords: low below 1,
    good from 1 to below 2, optimal from 2 to below 4, high from 4 on.
    The density returned is a number of that band with both ends
    included: rounding to two decimals does not cross 1, 2 or 4. *)
Theorem status_is_band_of_unrounded_density
        (content : string) (k : KeywordStat) :
  In k (keywords (analyze content)) ->
  let t := totalWords (analyze content) in
  let q := (inject_Z (Z.of_nat (frequency k)) / inject_Z (Z.of_nat t)
            * 100)%Q in
  0 < t
  /\ status k = classify (Fin q)
  /\ exists d,
       density k = Fin d
       /\ match status k with
          | low => (q < 1 /\ d <= 1)%Q
          | good => (1 <= q /\ q < 2 /\ 1 <= d /\ d <= 2)%Q
          | optimal => (2 <= q /\ q < 4 /\ 2 <= d /\ d <= 4)%Q
          | high => (4 <= q /\ 4 <= d)%Q
          end.
Proof.
  intros Hin t q.
  destruct (in_keywords content k Hin) as ([w f] & He & E).
  assert (Ht : 0 < t).
  { apply countWords_nil_inv. intros En.
    change (In (w, f) (countWords (words content))) in He.
    now rewrite En in He. }
  assert (Hf : frequency k = f) by now rewrite E.
  assert (Hq : (0 <= q)%Q).
  { unfold q. apply Qmult_le_0_compat; [|discriminate].
    apply Qle_shift_div_l.
    - rewrite <- (Zlt_Qlt 0). lia.
    - rewrite Qmult_0_l. rewrite <- (Zle_Qle 0). lia. }
  assert (Hd : density k = Fin (toFixed2 q)
               /\ status k = classify (Fin q)).
  { unfold q. rewrite Hf, E. cbn [stat density status].
    change (List.length (words content)) with t.
    rewrite (rawDensity_fin t f Ht). split; reflexivity. }
  destruct Hd as [Hd Hs].
  split; [exact Ht|]. split; [exact Hs|].
  exists (toFixed2 q). split; [exact Hd|].
  rewrite Hs.
  unfold classify, lt.
  destruct (Qltb q 1) eqn:E1.
  { apply Qltb_lt in E1. split; [assumption|].
    now apply (toFixed2_below q 1). }
  apply Qltb_ge in E1.
  destruct (Qltb q 2) eqn:E2.
  { apply Qltb_lt in E2. repeat split; try assumption.
    - now apply (toFixed2_above q 1).
    - now apply (toFixed2_below q 2). }
  apply Qltb_ge in E2.
  destruct (Qltb q 4) eqn:E4.
  { apply Qltb_lt in E4. repeat split; try assumption.
    - now apply (toFixed2_above q 2).
    - now apply (toFixed2_below q 4). }
  apply Qltb_ge in E4. split; [assumption|].
  now apply (toFixed2_above q 4).
Qed.

Lemma status_is_band_of_unrounded_density_witness :
  let k := {| word := "seo"; frequency := 2;
              density := Fin (100 # 100); status := low |} in
  In k (keywords (analyze content201))
  /\ status k = classify (Fin (inject_Z 2 / inject_Z 201 * 100)%Q)
  /\ exists d, density k = Fin d /\ (d <= 1)%Q.
Proof.
  intros k.
  assert (Hin : In k (keywords (analyze content201)))
    by (vm_compute; left; reflexivity).
  split; [exact Hin|].
  destruct (status_is_band_of_unrounded_density content201 k Hin)
    as (_ & Hs & d & Hd & Hb).
  split; [exact Hs|].
  exists d. split; [exact Hd | exact (proj2 Hb)].
Defined.

(** C3. When no keyword is returned, the average is the rounding of 0/0:
    [avgDensity] is NaN, while [topKeywordDensity] falls back to 0. *)
Theorem avgDensity_of_no_keywords (content : string) :
  keywords (analyze content) = [] ->
  avgDensity (analyze content) = NaN
  /\ topKeywordDensity (analyze content) = Fin 0.
Proof.
  cbn [analyze keywords avgDensity topKeywordDensity].
  intros ->. split; reflexivity.
Qed.

Lemma avgDensity_of_no_keywords_witness :
  keywordDensity shortWordsContent
  = Some {| totalWords := 0; uniqueKeywords := 0; keywords := [];
            avgDensity := NaN; topKeywordDensity := Fin 0 |}
  /\ avgDensity (analyze shortWordsContent) = NaN.
Proof.
  split; [reflexivity|].
  apply (avgDensity_of_no_keywords shortWordsContent). reflexivity.
Defined.

End KeywordDensityClaims.

(* ================================================================== *)
(** * Blog Outline Generator *)
(* ================================================================== *)

Section BlogOutlineFacts.
Import JS BlogOutline.

(** *** Trimming *)

Lemma trim_end_idem (s : string) : trim_end (trim_end s) = trim_end s.
Proof.
  induction s as [|c s IH]; [reflexivity|]. simpl.
  destruct (trim_end s) as [|d t] eqn:E.
  - destruct (is_space c) eqn:Hc; [reflexivity|]. simpl. now rewrite Hc.
  - change (trim_end (String c (String d t)))
      with (match trim_end (String d t) with
            | "" => if is_space c then "" else String c ""
            | String x y => String c (String x y)
            end).
    now rewrite IH.
Qed.

Lemma trim_end_tail (c : ascii) (s : string) :
  trim_end (String c s) = String c s -> trim_end s = s.
Proof.
  simpl. destruct (trim_end s) as [|d t] eqn:E.
  - destruct (is_space c); [discriminate|]. now intros [= <-].
  - now intros [= <-].
Qed.

Lemma trim_end_drop_while (p : ascii -> bool) (s : string) :
  trim_end s = s -> trim_end (drop_while p s) = drop_while p s.
Proof.
  induction s as [|c s IH]; [reflexivity|]. intros H.
  cbn [drop_while]. destruct (p c); [|exact H].
  apply IH. now apply (trim_end_tail c).
Qed.

Lemma trim_end_trim (s : string) : trim_end (trim s) = trim s.
Proof. unfold trim. apply trim_end_idem. Qed.

(** After the dash of a trimmed line, what [replace] leaves is the
    trimmed rest. *)
Lemma stripDash_trim (line : string) :
  startsWith "-" (trim line) = true ->
  stripDash (trim line) = trim (slice1 (trim line)).
Proof.
  intros H. unfold stripDash. rewrite H. unfold trim at 3.
  symmetry. apply trim_end_drop_while.
  pose proof (trim_end_trim line) as Ht.
  destruct (trim line) as [|c t]; [reflexivity|].
  now apply (trim_end_tail c).
Qed.

(** *** The loop *)

Lemma addSubsections_nil (current : OutlineSection) :
  addSubsections current [] = current.
Proof.
  destruct current. unfold addSubsections. simpl. now rewrite app_nil_r.
Qed.

Lemma addSubsections_app (current : OutlineSection) (a b : list string) :
  addSubsections (addSubsections current a) b = addSubsections current (a ++ b).
Proof. unfold addSubsections. simpl. now rewrite app_assoc. Qed.

(** What the loop and the last push make of the remaining lines, with a
    section open. *)
Lemma loop_open (ls : list string) (sections : list OutlineSection)
      (current : OutlineSection) :
  pushCurrent (fold_left step ls (sections, Some current))
  = sections
    ++ addSubsections current (subsections_spec (map trim ls))
    :: sections_spec (map trim ls).
Proof.
  revert sections current.
  induction ls as [|l ls IH]; intros sections current.
  - cbn. now rewrite addSubsections_nil.
  - cbn [fold_left map subsections_spec sections_spec].
    unfold step at 2. cbn [fst snd pushCurrent].
    destruct (isNumbered (trim l)) eqn:Hn.
    + rewrite IH. cbn [app]. rewrite addSubsections_nil.
      rewrite <- app_assoc. reflexivity.
    + destruct (startsWith "-" (trim l)) eqn:Hd.
      * fold (addSubsections current [stripDash (trim l)]).
        rewrite IH, addSubsections_app. cbn [app].
        now rewrite (stripDash_trim l Hd).
      * apply IH.
Qed.

(** The same with no section open. *)
Lemma loop_closed (ls : list string) (sections : list OutlineSection) :
  pushCurrent (fold_left step ls (sections, None))
  = sections ++ sections_spec (map trim ls).
Proof.
  revert sections. induction ls as [|l ls IH]; intros sections.
  - cbn. now rewrite app_nil_r.
  - cbn [fold_left map sections_spec].
    unfold step at 2. cbn [fst snd pushCurrent].
    destruct (isNumbered (trim l)) eqn:Hn.
    + rewrite loop_open. unfold addSubsections. reflexivity.
    + apply IH.
Qed.

Lemma sections_spec_none (ls : list string) :
  Forall (fun l => isNumbered l = false) ls -> sections_spec ls = [].
Proof.
  induction 1 as [|l ls Hl _ IH]; [reflexivity|].
  simpl. now rewrite Hl.
Qed.

End BlogOutlineFacts.

Section BlogOutlineClaims.
Import JS BlogOutline.

(** C5. When no non-blank line of the text, once trimmed, begins with
    digits and a period, the sections are the fixed three of the
    fallback, the first of which names the topic.  So the sections are
    never an empty list, whatever the text. *)
Theorem structure_fallback (rawText topic : string) :
  (Forall (fun line => isNumbered (trim line) = false) (lines rawText) ->
   structure rawText topic =
   [ {| heading := "Introduction"; level := 2;
        subsections := [("Why " ++ topic ++ " matters")%string;
                        "What you'll learn"] |};
     {| heading := "Main Content"; level := 2;
        subsections := ["Key concepts"; "Best practices";
                        "Common mistakes"] |};
     {| heading := "Conclusion"; level := 2;
        subsections := ["Key takeaways"; "Next steps"] |} ])
  /\ structure rawText topic <> [].
Proof.
  split.
  - intros H. unfold structure, parse. rewrite loop_closed.
    rewrite sections_spec_none; [reflexivity|].
    apply Forall_map. exact H.
  - unfold structure. destruct (parse rawText); discriminate.
Qed.

Lemma structure_fallback_witness :
  structure "" "My Topic" = fallback "My Topic"
  /\ structure "no numbered lines here" "My Topic" = fallback "My Topic".
Proof.
  split.
  - apply (proj1 (structure_fallback "" "My Topic")). constructor.
  - apply (proj1 (structure_fallback "no numbered lines here" "My Topic")).
    repeat constructor.
Defined.

(** C6. The sections parsed from the text are those of the numbered
    lines, in their order: each has the line without its number as
    heading, level 2, and as subsections the trimmed rests of the dash
    lines that follow it up to the next numbered line; dash lines before
    the first numbered line and all other lines leave no trace.  The
    generator returns these sections when there is one, and the example
    of the specification gives the two sections it names. *)
Theorem structure_parses_lines (rawText topic : string) :
  parse rawText = sections_spec (map trim (lines rawText))
  /\ (forall l ls,
        isNumbered l = true ->
        sections_spec (l :: ls)
        = {| heading := drop_while is_space
                          (slice1 (drop_while is_digit l));
             level := 2;
             subsections := subsections_spec ls |} :: sections_spec ls)
  /\ (parse rawText <> [] -> structure rawText topic = parse rawText)
  /\ structure exampleOutline "X" =
     [ {| heading := "Getting Started"; level := 2;
          subsections := ["Install"; "Configure"] |};
       {| heading := "Advanced"; level := 2;
          subsections := ["Scale"] |} ].
Proof.
  split; [|split; [|split]].
  - unfold parse. now rewrite loop_closed.
  - intros l ls Hl. cbn [sections_spec]. unfold stripNumber.
    now rewrite Hl.
  - unfold structure. destruct (parse rawText); [congruence | reflexivity].
  - reflexivity.
Qed.

Lemma structure_parses_lines_witness :
  structure exampleOutline "X" = parse exampleOutline.
Proof.
  destruct (structure_parses_lines exampleOutline "X") as (_ & _ & H & _).
  apply H. discriminate.
Defined.

End BlogOutlineClaims.

(* ================================================================== *)
(** * Title Case Converter: further properties *)
(* ================================================================== *)

Section TitleCaseMore.
Import JS TitleCase.

Ltac every_char c := destruct c as [[] [] [] [] [] [] [] []].

Lemma upper_char_no_space (c : ascii) :
  is_space c = false -> no_space (upper_char c) = true.
Proof. every_char c; intros H; try reflexivity; discriminate H. Qed.

Lemma upper_char_nonempty (c : ascii) : upper_char c <> "".
Proof. every_char c; discriminate. Qed.

Lemma no_space_app (a b : string) :
  no_space (a ++ b) = no_space a && no_space b.
Proof.
  unfold no_space. induction a as [|x a IH]; simpl; [reflexivity|].
  now rewrite IH, andb_assoc.
Qed.

Lemma no_space_toLowerCase (s : string) :
  no_space (toLowerCase s) = no_space s.
Proof.
  unfold no_space, toLowerCase. induction s as [|c s IH]; simpl;
    [reflexivity|].
  now rewrite lower_char_space, IH.
Qed.

Lemma capitalize_no_space (w : string) :
  no_space w = true -> no_space (capitalize w) = true.
Proof.
  destruct w as [|c w]; [reflexivity|]. rewrite capitalize_cons.
  unfold no_space at 1. simpl. intros H.
  apply andb_true_iff in H as [Hc Hw]. apply negb_true_iff in Hc.
  rewrite no_space_app, (upper_char_no_space c Hc). exact Hw.
Qed.

Lemma capitalize_nonempty (w : string) : w <> "" -> capitalize w <> "".
Proof.
  destruct w as [|c w]; [congruence|]. intros _. rewrite capitalize_cons.
  pose proof (upper_char_nonempty c) as H.
  destruct (upper_char c); [congruence | discriminate].
Qed.

Lemma convertWord_no_space (n i : Z) (w : string) :
  no_space w = true -> no_space (convertWord n w i) = true.
Proof.
  intros H. unfold convertWord.
  destruct ((i =? 0)%Z || (i =? n - 1)%Z); [now apply capitalize_no_space|].
  destruct (has stopWords w); [assumption | now apply capitalize_no_space].
Qed.

Lemma convertWord_nonempty (n i : Z) (w : string) :
  w <> "" -> convertWord n w i <> "".
Proof.
  intros H. unfold convertWord.
  destruct ((i =? 0)%Z || (i =? n - 1)%Z); [now apply capitalize_nonempty|].
  destruct (has stopWords w); [assumption | now apply capitalize_nonempty].
Qed.

Lemma mapi_from_no_space (n k : Z) (ws : list string) :
  forallb no_space ws = true ->
  forallb no_space (mapi_from (convertWord n) k ws) = true.
Proof.
  revert k. induction ws as [|w ws IH]; intros k H; [reflexivity|].
  simpl in H. apply andb_true_iff in H as [Hw H].
  cbn [mapi_from forallb]. now rewrite convertWord_no_space, IH.
Qed.

Lemma mapi_from_inner_nonempty (n k : Z) (ws : list string) :
  inner_nonempty ws = true ->
  inner_nonempty (mapi_from (convertWord n) k ws) = true.
Proof.
  revert k. induction ws as [|w ws IH]; intros k H; [reflexivity|].
  destruct ws as [|w2 ws]; [reflexivity|].
  change (inner_nonempty (w :: w2 :: ws))
    with (negb (String.eqb w "") && inner_nonempty (w2 :: ws)) in H.
  apply andb_true_iff in H as [Hw H].
  apply negb_true_iff, String.eqb_neq in Hw.
  specialize (IH (k + 1)%Z H).
  cbn [mapi_from] in *.
  change (negb (String.eqb (convertWord n w k) "")
          && inner_nonempty
               (convertWord n w2 (k + 1)
                :: mapi_from (convertWord n) (k + 1 + 1) ws) = true).
  rewrite IH, andb_true_r. apply negb_true_iff, String.eqb_neq.
  now apply convertWord_nonempty.
Qed.

Lemma convertedWords_pieces (text : string) : pieces (convertedWords text).
Proof.
  destruct (split_ws_pieces (toLowerCase text)) as (Hne & Hns & Hin).
  fold (words text) in *. unfold convertedWords, mapi.
  repeat split.
  - intros E. apply (f_equal (@List.length string)) in E.
    rewrite mapi_from_length in E. destruct (words text);
      [congruence | discriminate E].
  - now apply mapi_from_no_space.
  - destruct (words text) as [|w ws]; [reflexivity|].
    cbn [mapi_from tl] in *. now apply mapi_from_inner_nonempty.
Qed.

(** X1. A text without white space is one word, first and last at once:
    it is lower-cased and capitalized, stop word or not. *)
Theorem title_case_single_word (text : string) :
  no_space text = true ->
  converted text = capitalize (toLowerCase text).
Proof.
  intros H. unfold converted, convertedWords, words.
  rewrite split_ws_word by now rewrite no_space_toLowerCase.
  reflexivity.
Qed.

Lemma title_case_single_word_witness :
  converted "THE" = "The" /\ converted "iPhone" = "Iphone".
Proof.
  split.
  - rewrite (title_case_single_word "THE"); reflexivity.
  - rewrite (title_case_single_word "iPhone"); reflexivity.
Defined.

(** X2. The capitals of the text play no part: the text and its
    lower-cased form have the same converted words and text. *)
Theorem title_case_ignores_case (text : string) :
  convertedWords (toLowerCase text) = convertedWords text
  /\ converted (toLowerCase text) = converted text.
Proof.
  assert (H : words (toLowerCase text) = words text)
    by (unfold words; now rewrite toLowerCase_idem).
  unfold converted, convertedWords. now rewrite H.
Qed.

Lemma split_ws_map_chars (f : ascii -> ascii) (s : string) :
  (forall c, is_space (f c) = is_space c) ->
  split_ws (map_chars f s) = map (map_chars f) (split_ws s).
Proof.
  intros Hf. induction s as [|c s IH]; [reflexivity|].
  cbn [map_chars split_ws]. rewrite Hf, IH.
  replace (starts_with is_space (map_chars f s))
    with (starts_with is_space s)
    by (destruct s; [reflexivity | simpl; now rewrite Hf]).
  destruct (is_space c).
  - now destruct (starts_with is_space s).
  - now destruct (split_ws s).
Qed.

(** X3. The converted text splits on white space into the converted
    words: the words are kept apart by single spaces and none of them
    gains white space, so the converted text has as many pieces as the
    text. *)
Theorem title_case_split_converted (text : string) :
  split_ws (converted text) = convertedWords text
  /\ List.length (split_ws (converted text))
     = List.length (split_ws text).
Proof.
  assert (H : split_ws (converted text) = convertedWords text)
    by (apply split_ws_join, convertedWords_pieces).
  split; [exact H|]. rewrite H.
  unfold convertedWords, mapi. rewrite mapi_from_length.
  unfold words, toLowerCase.
  rewrite (split_ws_map_chars _ _ lower_char_space). apply length_map.
Qed.

(** X4. For every text of ASCII characters, and more generally when no
    word begins with U+00B5, U+00DF or U+00FF, the conversion changes
    nothing but the case of letters and the white space between words:
    lower-cased, the converted text is the lower-cased text with every
    run of white space replaced by one space. *)
Theorem title_case_changes_case_only (text : string) :
  forallb (fun w => negb (wide_initial w)) (words text) = true
  \/ all_chars is_ascii text = true ->
  toLowerCase (converted text) = toLowerCase (join_space (split_ws text)).
Proof.
  intros H.
  assert (Hs : forallb (fun w => negb (wide_initial w)) (words text)
               = true).
  { destruct H as [H|H]; [assumption | now apply ascii_words_not_wide]. }
  unfold converted, convertedWords, mapi.
  rewrite !toLowerCase_join.
  rewrite lower_mapi_from by (apply words_lowered || assumption).
  unfold words, toLowerCase at 1.
  now rewrite (split_ws_map_chars _ _ lower_char_space).
Qed.

Lemma title_case_changes_case_only_witness :
  converted "The  LORD of   the Rings" = "The Lord of the Rings"
  /\ toLowerCase (converted "The  LORD of   the Rings")
     = "the lord of the rings".
Proof.
  split; [reflexivity|].
  rewrite (title_case_changes_case_only "The  LORD of   the Rings").
  - reflexivity.
  - right. reflexivity.
Defined.

End TitleCaseMore.

(* ================================================================== *)
(** * Keyword Density Analyzer: further properties *)
(* ================================================================== *)

Section KeywordDensityMore.
Import JS KeywordDensity.

Ltac every_char c := destruct c as [[] [] [] [] [] [] [] []].


Lemma clean_lower_shape (c : ascii) :
  let x := clean_char (lower_char c) in
  is_space x || lower_word_char x = true.
Proof. every_char c; reflexivity. Qed.

Lemma map_chars_map_chars (f g : ascii -> ascii) (s : string) :
  map_chars f (map_chars g s) = map_chars (fun c => f (g c)) s.
Proof. induction s as [|c s IH]; simpl; [reflexivity | now rewrite IH]. Qed.




(** *** The entries of the word-count map *)

Lemma map_get_in (m : list (string * nat)) (w : string) (f : nat) :
  NoDup (map fst m) -> In (w, f) m -> map_get m w = Some f.
Proof.
  induction m as [|[k v] m IH]; intros Hnd Hin; [destruct Hin|].
  simpl in Hnd. inversion Hnd as [|? ? Hk Hm]; subst.
  destruct Hin as [E|Hin].
  - injection E as -> ->. simpl. now rewrite String.eqb_refl.
  - simpl. destruct (String.eqb_spec k w) as [->|Hne].
    + exfalso. apply Hk. apply in_map_iff. now exists (w, f).
    + now apply IH.
Qed.

Lemma countWords_positive (ws : list string) (m : list (string * nat)) :
  Forall (fun e => 1 <= snd e) m ->
  Forall (fun e => 1 <= snd e)
    (fold_left
       (fun wordCount word =>
          map_set word (get_or_zero (map_get wordCount word) + 1) wordCount)
       ws m).
Proof.
  revert m. induction ws as [|w ws IH]; intros m H; [exact H|].
  cbn [fold_left]. apply IH.
  generalize (get_or_zero (map_get m w)). intros v.
  induction H as [|[k x] m Hx Hm IHm]; simpl.
  - repeat constructor. simpl. lia.
  - destruct (String.eqb k w); constructor; simpl in *;
      (lia || assumption).
Qed.

Lemma countWords_entry (ws : list string) (w : string) (f : nat) :
  In (w, f) (countWords ws) ->
  f = count_occ string_dec ws w /\ 1 <= f /\ In w ws.
Proof.
  intros Hin.
  assert (Hf : f = count_occ string_dec ws w).
  { rewrite <- countWords_count.
    now rewrite (map_get_in _ _ _ (countWords_NoDup ws) Hin). }
  assert (Hp : 1 <= f).
  { pose proof (countWords_positive ws [] (Forall_nil _)) as H.
    rewrite Forall_forall in H. exact (H _ Hin). }
  repeat split; try assumption.
  apply (count_occ_In string_dec). lia.
Qed.

Lemma cleaned_shape (content : string) :
  all_chars (fun c => is_space c || lower_word_char c)
    (map_chars clean_char (toLowerCase content)) = true.
Proof.
  unfold toLowerCase. rewrite map_chars_map_chars.
  induction content as [|c t IH]; [reflexivity|].
  cbn [map_chars all_chars]. rewrite IH, andb_true_r.
  apply clean_lower_shape.
Qed.

Lemma words_shape (content : string) (w : string) :
  In w (words content) ->
  2 < String.length w /\ all_chars lower_word_char w = true.
Proof.
  unfold words. intros H. apply filter_In in H as [Hin Hlen].
  split; [now apply Nat.ltb_lt|].
  set (s := map_chars clean_char (toLowerCase content)) in *.
  pose proof (cleaned_shape content) as Hs. fold s in Hs.
  apply split_ws_all_chars in Hs.
  rewrite forallb_forall in Hs. specialize (Hs w Hin).
  pose proof (split_ws_no_space s) as Hns.
  rewrite forallb_forall in Hns. specialize (Hns w Hin).
  clear -Hs Hns. unfold no_space in Hns.
  induction w as [|c w IH]; [reflexivity|]. simpl in *.
  apply andb_true_iff in Hs as [Hc Hs].
  apply andb_true_iff in Hns as [Hn Hns].
  apply negb_true_iff in Hn. rewrite Hn in Hc. simpl in Hc.
  now rewrite Hc, IH.
Qed.

(** X6. The frequency of a returned keyword is the number of times its
    word occurs among the words of the content; it is at least 1 and at
    most [totalWords]. *)
Theorem keyword_frequency_counts (content : string) (k : KeywordStat) :
  In k (keywords (analyze content)) ->
  frequency k = count_occ string_dec (words content) (word k)
  /\ 1 <= frequency k
  /\ frequency k <= totalWords (analyze content).
Proof.
  intros Hin. destruct (in_keywords content k Hin) as ([w f] & He & ->).
  destruct (countWords_entry _ _ _ He) as (Hf & Hp & _).
  cbn [stat frequency word]. repeat split; try assumption.
  rewrite Hf. apply count_occ_bound.
Qed.

Lemma keyword_frequency_counts_witness :
  let k := {| word := "seo"; frequency := 2;
              density := Fin (100 # 100); status := low |} in
  frequency k = count_occ string_dec (words content201) "seo".
Proof.
  intros k.
  apply (keyword_frequency_counts content201 k).
  vm_compute. left. reflexivity.
Defined.

(** X7. The words of the returned keywords are distinct; each has more
    than two characters, all of them lower-case letters, digits or
    underscores. *)
Theorem keyword_words_shape (content : string) :
  NoDup (map word (keywords (analyze content)))
  /\ (forall k, In k (keywords (analyze content)) ->
        2 < String.length (word k)
        /\ all_chars lower_word_char (word k) = true).
Proof.
  split.
  - cbn [analyze keywords].
    assert (H : NoDup (map word (sortedStats content))).
    { apply (Permutation_NoDup
               (l := map word (allStats content))).
      - apply Permutation_map, Permutation_sym, sort_perm.
      - unfold allStats. rewrite map_map.
        rewrite (map_ext _ fst); [apply countWords_NoDup|].
        now intros [w f]. }
    rewrite <- (firstn_skipn 20 (sortedStats content)), map_app in H.
    now apply NoDup_app_remove_r in H.
  - intros k Hin. destruct (in_keywords content k Hin) as ([w f] & He & ->).
    destruct (countWords_entry _ _ _ He) as (_ & _ & Hw).
    cbn [stat word]. now apply (words_shape content).
Qed.

Lemma keyword_words_shape_witness :
  map word (keywords (analyze "Hello, hello WORLD! It's the world."))
  = ["hello"; "world"; "the"]
  /\ all_chars lower_word_char "hello" = true.
Proof.
  split; [reflexivity|].
  apply (proj2 (keyword_words_shape "Hello, hello WORLD! It's the world.")
           {| word := "hello"; frequency := 2;
              density := Fin (4000 # 100); status := high |}).
  vm_compute. left. reflexivity.
Defined.

(** X8. [uniqueKeywords] counts the distinct words, so it is at most
    [totalWords] and is 0 only when [totalWords] is; the keyword list
    holds twenty statistics, or all of them when there are fewer. *)
Theorem unique_keywords_count (content : string) :
  uniqueKeywords (analyze content) <= totalWords (analyze content)
  /\ (uniqueKeywords (analyze content) = 0
      <-> totalWords (analyze content) = 0)
  /\ List.length (keywords (analyze content))
     = Nat.min 20 (uniqueKeywords (analyze content)).
Proof.
  cbn [analyze uniqueKeywords totalWords keywords].
  set (ws := words content).
  assert (Hle : List.length (countWords ws) <= List.length ws).
  { pose proof (sumValues_countWords ws) as Hsum.
    pose proof (countWords_positive ws [] (Forall_nil _)) as H.
    fold (countWords ws) in H.
    assert (Hm : forall m : list (string * nat),
               Forall (fun e => 1 <= snd e) m ->
               List.length m <= sumValues m).
    { clear. unfold sumValues.
      induction 1 as [|e m He _ IH]; simpl; lia. }
    specialize (Hm _ H). lia. }
  repeat split.
  - exact Hle.
  - intros H. destruct ws as [|w ws']; [reflexivity|].
    exfalso. pose proof (sumValues_countWords (w :: ws')) as Hs.
    destruct (countWords (w :: ws')); [discriminate Hs | discriminate H].
  - intros H. lia.
  - rewrite length_firstn. f_equal. unfold sortedStats.
    rewrite (Permutation_length (sort_perm _ _)).
    unfold allStats. apply length_map.
Qed.

(** *** Densities *)

Lemma densityOf_range (f t : nat) :
  0 < t -> f <= t -> (0 <= densityOf f t /\ densityOf f t <= 100)%Q.
Proof.
  intros Ht Hf. unfold densityOf.
  assert (Hpos : (0 < inject_Z (Z.of_nat t))%Q)
    by (rewrite <- (Zlt_Qlt 0); lia).
  assert (H0 : (0 <= inject_Z (Z.of_nat f) / inject_Z (Z.of_nat t))%Q).
  { apply Qle_shift_div_l; [assumption|]. rewrite Qmult_0_l.
    rewrite <- (Zle_Qle 0). lia. }
  assert (H1 : (inject_Z (Z.of_nat f) / inject_Z (Z.of_nat t) <= 1)%Q).
  { apply Qle_shift_div_r; [assumption|]. rewrite Qmult_1_l.
    rewrite <- Zle_Qle. lia. }
  split; lra.
Qed.

Lemma densityOf_mono (f g t : nat) :
  0 < t -> f <= g -> (densityOf f t <= densityOf g t)%Q.
Proof.
  intros Ht Hf. unfold densityOf.
  apply Qmult_le_compat_r; [|discriminate].
  unfold Qdiv. apply Qmult_le_compat_r.
  - rewrite <- Zle_Qle. lia.
  - apply Qinv_le_0_compat. rewrite <- (Zle_Qle 0). lia.
Qed.

Lemma toFixed2_small (q : Q) :
  (0 <= q)%Q -> (q <= 100)%Q -> toFixed2 q = round_hundredths q.
Proof.
  intros H0 H1. unfold toFixed2.
  replace (Qle_bool (10 ^ 21) (Qabs q)) with false.
  - now replace (Qltb q 0) with false by (symmetry; now apply Qltb_ge).
  - symmetry. apply not_true_is_false. intros H.
    apply Qle_bool_iff in H. rewrite Qabs_pos in H by assumption.
    assert (Hc : (100 < 10 ^ 21)%Q) by reflexivity. lra.
Qed.

Lemma round_hundredths_mono (x y : Q) :
  (x <= y)%Q -> (round_hundredths x <= round_hundredths y)%Q.
Proof.
  intros H. unfold round_hundredths.
  assert (Hf : (Qfloor (x * 100 + (1 # 2)) <= Qfloor (y * 100 + (1 # 2)))%Z)
    by (apply Qfloor_resp_le; lra).
  unfold Qle. cbn [Qnum Qden]. lia.
Qed.

Lemma round_hundredths_nonneg (x : Q) :
  (0 <= x)%Q -> (0 <= round_hundredths x)%Q.
Proof.
  intros H. apply (round_hundredths_mono 0 x) in H.
  apply (Qle_trans _ (round_hundredths 0)); [discriminate | exact H].
Qed.

(** The density of a returned keyword. *)
Lemma keyword_density (content : string) (k : KeywordStat) :
  In k (keywords (analyze content)) ->
  let t := List.length (words content) in
  0 < t /\ frequency k <= t
  /\ density k = Fin (round_hundredths (densityOf (frequency k) t)).
Proof.
  intros Hin t. destruct (in_keywords content k Hin) as ([w f] & He & ->).
  destruct (countWords_entry _ _ _ He) as (Hf & Hp & Hw).
  assert (Ht : 0 < t) by (unfold t; destruct (words content);
                          [destruct Hw | simpl; lia]).
  assert (Hft : f <= t) by (rewrite Hf; apply count_occ_bound).
  cbn [stat frequency density]. repeat split; try assumption.
  fold t. rewrite (rawDensity_fin t f Ht). cbn [round2]. f_equal.
  destruct (densityOf_range f t Ht Hft) as [H0 H1].
  now apply toFixed2_small.
Qed.

(** The densities of the returned keywords lie between 0 and that of
    the first one, which is at most 100. *)
Lemma densities_bounded (content : string) :
  exists top : Q,
    (0 <= top)%Q /\ (top <= 100)%Q
    /\ (exists y, top = round_hundredths y)
    /\ (exists top', topKeywordDensity (analyze content) = Fin top'
                     /\ (top' == top)%Q)
    /\ Forall (fun k => exists d, density k = Fin d
                                  /\ (0 <= d)%Q /\ (d <= top)%Q)
         (keywords (analyze content)).
Proof.
  pose proof (keyword_density content) as Hk.
  assert (Hsorted : StronglySorted notBelow (keywords (analyze content)))
    by (apply firstn_sorted, sort_sorted).
  cbn [analyze topKeywordDensity keywords] in *.
  set (t := List.length (words content)) in *.
  destruct (firstn 20 (sortedStats content)) as [|k0 ks] eqn:E.
  - exists (round_hundredths 0). repeat split; try discriminate.
    + now exists 0%Q.
    + exists 0%Q. split; reflexivity.
    + constructor.
  - destruct (Hk k0 (or_introl eq_refl)) as (Ht & Hf0 & Hd0).
    destruct (densityOf_range _ _ Ht Hf0) as [Hq0 Hq1].
    exists (round_hundredths (densityOf (frequency k0) t)).
    split; [now apply round_hundredths_nonneg|].
    split.
    { apply (round_hundredths_mono _ 100) in Hq1.
      apply (Qle_trans _ (round_hundredths 100)); [exact Hq1 | discriminate]. }
    split; [eauto|]. split.
    { rewrite Hd0. unfold or_zero.
      destruct (Qeq_bool _ 0) eqn:Ez.
      - exists 0%Q. split; [reflexivity|].
        apply Qeq_bool_iff in Ez. now symmetry.
      - eexists. split; reflexivity. }
    apply Forall_forall. intros k Hin.
    destruct (Hk k Hin) as (_ & Hf & Hd).
    exists (round_hundredths (densityOf (frequency k) t)).
    split; [exact Hd|].
    destruct (densityOf_range _ _ Ht Hf) as [Hk0 _].
    split; [now apply round_hundredths_nonneg|].
    apply round_hundredths_mono, densityOf_mono; [assumption|].
    inversion Hsorted as [|? ? _ Hall]; subst.
    destruct Hin as [<-|Hin]; [lia|].
    rewrite Forall_forall in Hall. exact (Hall k Hin).
Qed.

(** X9. [topKeywordDensity] is the greatest of the returned densities:
    every returned density is a number between 0 and it, and it is at
    most 100. *)
Theorem top_density_is_greatest (content : string) :
  exists top : Q,
    topKeywordDensity (analyze content) = Fin top
    /\ (0 <= top)%Q /\ (top <= 100)%Q
    /\ forall k, In k (keywords (analyze content)) ->
         exists d, density k = Fin d /\ (0 <= d)%Q /\ (d <= top)%Q.
Proof.
  destruct (densities_bounded content)
    as (top & H0 & H1 & _ & (top' & Ht & Heq) & Hall).
  exists top'. split; [exact Ht|].
  split; [now rewrite Heq|]. split; [now rewrite Heq|].
  intros k Hin. rewrite Forall_forall in Hall.
  destruct (Hall k Hin) as (d & Hd & Hd0 & Hd1).
  exists d. repeat split; try assumption. now rewrite Heq.
Qed.

Lemma top_density_is_greatest_witness :
  topKeywordDensity (analyze content201) = Fin (100 # 100)
  /\ exists top, topKeywordDensity (analyze content201) = Fin top
                 /\ (top <= 100)%Q.
Proof.
  split; [vm_compute; reflexivity|].
  destruct (top_density_is_greatest content201) as (top & Ht & _ & H1 & _).
  exists top. split; [exact Ht | exact H1].
Defined.

(** The sum of numbers between 0 and 100 is a number, between 0 and
    100 times how many they are. *)
Lemma sum_densities (ks : list KeywordStat) (a : Q) :
  Forall (fun k => exists d, density k = Fin d
                             /\ (0 <= d)%Q /\ (d <= 100)%Q) ks ->
  exists s,
    fold_left (fun sum k => add sum (density k)) ks (Fin a) = Fin s
    /\ (a <= s)%Q
    /\ (s <= a + inject_Z (Z.of_nat (List.length ks)) * 100)%Q.
Proof.
  intros H. revert a. induction H as [|k ks (d & Hd & Hd0 & Hd1) _ IH];
    intros a.
  - exists a. split; [reflexivity|].
    change (inject_Z (Z.of_nat (List.length (@nil KeywordStat)))) with 0%Q.
    split; lra.
  - cbn [fold_left]. rewrite Hd. cbn [add].
    destruct (IH (a + d)%Q) as (s & Hs & Hs0 & Hs1).
    exists s. split; [exact Hs|]. split; [lra|].
    replace (Z.of_nat (List.length (k :: ks)))
      with (Z.of_nat (List.length ks) + 1)%Z by (cbn [List.length]; lia).
    rewrite inject_Z_plus. change (inject_Z 1) with 1%Q.
    set (n := inject_Z (Z.of_nat (List.length ks))) in *. lra.
Qed.

(** X10. [avgDensity] is NaN only when no keyword is returned;
    otherwise it is a number between 0 and 100. *)
Theorem avgDensity_range (content : string) :
  (avgDensity (analyze content) = NaN
   <-> keywords (analyze content) = [])
  /\ (keywords (analyze content) <> [] ->
      exists a,
        avgDensity (analyze content) = Fin a
        /\ (0 <= a)%Q /\ (a <= 100)%Q).
Proof.
  assert (Hmain : keywords (analyze content) <> [] ->
      exists a,
        avgDensity (analyze content) = Fin a
        /\ (0 <= a)%Q /\ (a <= 100)%Q).
  { intros Hne.
    destruct (densities_bounded content)
      as (top & H0 & H1 & _ & _ & Hall).
    assert (Hall' : Forall (fun k => exists d, density k = Fin d
                                  /\ (0 <= d)%Q /\ (d <= 100)%Q)
                      (keywords (analyze content))).
    { eapply Forall_impl; [|exact Hall].
      intros k (d & Hd & Hd0 & Hd1). exists d.
      repeat split; try assumption. lra. }
    destruct (sum_densities _ 0 Hall') as (s & Hs & Hs0 & Hs1).
    cbn [analyze avgDensity keywords] in *.
    set (ks := firstn 20 (sortedStats content)) in *.
    rewrite Hs. unfold of_nat.
    set (n := inject_Z (Z.of_nat (List.length ks))) in *.
    assert (Hn : (0 < n)%Q).
    { unfold n. rewrite <- (Zlt_Qlt 0).
      destruct ks; [congruence | cbn [List.length]; lia]. }
    cbn [div]. replace (Qeq_bool n 0) with false.
    2:{ symmetry. apply not_true_is_false. intros E.
        apply Qeq_bool_iff in E. lra. }
    assert (Ha0 : (0 <= s / n)%Q).
    { apply Qle_shift_div_l; [assumption | lra]. }
    assert (Ha1 : (s / n <= 100)%Q).
    { apply Qle_shift_div_r; [assumption | lra]. }
    exists (toFixed2 (s / n)). split; [reflexivity|].
    rewrite toFixed2_small by lra.
    split; [now apply round_hundredths_nonneg|].
    apply (Qle_trans _ (round_hundredths 100));
      [now apply round_hundredths_mono | discriminate]. }
  split; [|exact Hmain]. split.
  - intros HN. destruct (keywords (analyze content)) eqn:E; [reflexivity|].
    destruct Hmain as (a & Ha & _); [discriminate|]. congruence.
  - cbn [analyze avgDensity keywords]. intros ->. reflexivity.
Qed.

Lemma avgDensity_range_witness :
  exists a,
    avgDensity (analyze content201) = Fin a
    /\ (0 <= a)%Q /\ (a <= 100)%Q.
Proof.
  apply (proj2 (avgDensity_range content201)).
  vm_compute. discriminate.
Defined.

End KeywordDensityMore.

(* ================================================================== *)
(** * The generator and its two handlers *)
(* ================================================================== *)

Section GeneratorFacts.
Import JS HuggingFace.

Lemma substring_prefix (n : nat) (s : string) :
  exists rest,
    s = (String.substring 0 n s ++ rest)%string
    /\ String.length (String.substring 0 n s) = Nat.min n (String.length s).
Proof.
  revert n. induction s as [|c s IH]; intros n.
  - exists "". destruct n; split; reflexivity.
  - destruct n as [|n].
    + exists (String c s). split; reflexivity.
    + destruct (IH n) as (rest & E & L). exists rest. simpl.
      split; [now rewrite <- E | now rewrite L].
Qed.

Lemma drop_while_starts (p : ascii -> bool) (s : string) :
  starts_with p (drop_while p s) = false.
Proof.
  induction s as [|c s IH]; [reflexivity|]. simpl.
  destruct (p c) eqn:E; [exact IH | simpl; exact E].
Qed.

Lemma trim_end_starts (p : ascii -> bool) (s : string) :
  starts_with p s = false -> starts_with p (trim_end s) = false.
Proof.
  destruct s as [|c s]; [reflexivity|]. simpl. intros H.
  destruct (trim_end s); [|exact H].
  destruct (is_space c); [reflexivity | exact H].
Qed.

Lemma trim_starts (s : string) : starts_with is_space (trim s) = false.
Proof. unfold trim. apply trim_end_starts, drop_while_starts. Qed.

Lemma starts_with_prefix (p : ascii -> bool) (a b : string) :
  starts_with p (a ++ b) = false -> starts_with p a = false.
Proof. destruct a; [reflexivity | exact (fun H => H)]. Qed.

Lemma no_key (env : Env) (service : Service) (prompt : string) :
  apiKey env = "" ->
  callHuggingFace env service prompt
  = inl "Hugging Face API key not configured".
Proof. unfold callHuggingFace. now intros ->. Qed.

Lemma apiKey_empty (env : Env) :
  apiKey env = "" <->
  (HUGGING_FACE_API_KEY env = None \/ HUGGING_FACE_API_KEY env = Some "")
  /\ (HF_API_KEY env = None \/ HF_API_KEY env = Some "").
Proof.
  unfold apiKey, or_else.
  destruct (HUGGING_FACE_API_KEY env) as [a|], (HF_API_KEY env) as [b|];
    try destruct (String.eqb_spec a ""); try destruct (String.eqb_spec b "");
    subst; split; intros H; try reflexivity; try tauto;
    try (split; auto; fail);
    try (destruct H as [[H|H] [H'|H']]; congruence).
Qed.


End GeneratorFacts.

Section GeneratorClaims.
Import JS HuggingFace.

(** X11. The [length] of a meta description response is the number of
    characters of its [content], and at most 160. *)
Theorem meta_description_length (aiResponse : string) :
  let r := MetaDescription.respond aiResponse in
  MetaDescription.length r = String.length (MetaDescription.content r)
  /\ MetaDescription.length r <= 160.
Proof.
  unfold MetaDescription.respond.
  cbn [MetaDescription.length MetaDescription.content].
  set (content := trim aiResponse).
  split; [|apply Nat.le_min_r].
  destruct (Nat.ltb_spec 160 (String.length content)).
  - destruct (substring_prefix 160 content) as (_ & _ & L).
    rewrite L. lia.
  - lia.
Qed.

(** X12. The [content] of a meta description response is the beginning
    of the trimmed generated text, all of it when that has at most 160
    characters; it does not begin with white space. *)
Theorem meta_description_content (aiResponse : string) :
  let r := MetaDescription.respond aiResponse in
  (exists rest,
     trim aiResponse = (MetaDescription.content r ++ rest)%string
     /\ (String.length (trim aiResponse) <= 160 -> rest = ""))
  /\ starts_with is_space (MetaDescription.content r) = false.
Proof.
  unfold MetaDescription.respond. cbn [MetaDescription.content].
  set (content := trim aiResponse).
  assert (H : exists rest,
             content = ((if (160 <? String.length content)%nat
                         then String.substring 0 160 content
                         else content) ++ rest)%string
             /\ (String.length content <= 160 -> rest = "")).
  { destruct (Nat.ltb_spec 160 (String.length content)).
    - destruct (substring_prefix 160 content) as (rest & E & _).
      exists rest. split; [exact E | lia].
    - exists "". split; [now rewrite append_empty_r | reflexivity]. }
  split; [exact H|].
  destruct H as (rest & E & _).
  apply (starts_with_prefix _ _ rest). rewrite <- E. apply trim_starts.
Qed.

Lemma meta_description_content_witness :
  MetaDescription.respond "   Learn SEO in ten steps.  "
  = {| MetaDescription.content := "Learn SEO in ten steps.";
       MetaDescription.length := 23 |}
  /\ exists rest,
       trim "   Learn SEO in ten steps.  "
       = ("Learn SEO in ten steps." ++ rest)%string /\ rest = "".
Proof.
  split; [reflexivity|].
  destruct (meta_description_content "   Learn SEO in ten steps.  ")
    as ((rest & E & H) & _).
  exists rest. split; [exact E|]. apply H. vm_compute. lia.
Defined.

(** X13. When neither [HUGGING_FACE_API_KEY] nor [HF_API_KEY] holds a
    non-empty string, the two generating handlers answer every accepted
    request with status 500 and the message that the key is not
    configured, whatever the service would say. *)
Theorem generator_without_key
        (env : Env) (service : Service)
        (text : string) (audience : option string)
        (length : BlogOutlineHandler.Length) :
  (HUGGING_FACE_API_KEY env = None \/ HUGGING_FACE_API_KEY env = Some "") ->
  (HF_API_KEY env = None \/ HF_API_KEY env = Some "") ->
  text <> "" ->
  MetaDescription.metaDescription env service text audience
  = Some (Status500 "Hugging Face API key not configured")
  /\ BlogOutlineHandler.blogOutline env service text audience length
     = Some (Status500 "Hugging Face API key not configured").
Proof.
  intros H1 H2 Ht.
  assert (Hk : apiKey env = "") by (apply apiKey_empty; now split).
  assert (Hs : (1 <=? String.length text) = true)
    by (destruct text; [congruence | reflexivity]).
  unfold MetaDescription.metaDescription, BlogOutlineHandler.blogOutline,
    MetaDescription.metaDescriptionRequestSchema,
    BlogOutlineHandler.blogOutlineRequestSchema.
  rewrite Hs, !(no_key env service _ Hk). split; reflexivity.
Qed.

Lemma generator_without_key_witness :
  MetaDescription.metaDescription
    {| HUGGING_FACE_API_KEY := Some ""; HF_API_KEY := None |}
    (fun _ _ => Body (Some "text") None) "Ten SEO tips" None
  = Some (Status500 "Hugging Face API key not configured").
Proof.
  apply (generator_without_key _ _ "Ten SEO tips" None
           BlogOutlineHandler.medium).
  - right. reflexivity.
  - left. reflexivity.
  - discriminate.
Defined.

(** X14. With a key, when the request to the service is rejected or its
    response is not [ok], the two handlers answer with status 500 and
    one fixed message: the status text of the service is not passed
    on. *)
Theorem generator_service_failure
        (env : Env) (service : Service)
        (text : string) (audience : option string)
        (length : BlogOutlineHandler.Length) :
  apiKey env <> "" ->
  text <> "" ->
  (forall prompt, service (apiKey env) prompt = Rejected
                  \/ exists statusText,
                       service (apiKey env) prompt = NotOk statusText) ->
  MetaDescription.metaDescription env service text audience
  = Some (Status500 "Failed to generate AI content")
  /\ BlogOutlineHandler.blogOutline env service text audience length
     = Some (Status500 "Failed to generate AI content").
Proof.
  intros Hk Ht Hf.
  assert (Hs : (1 <=? String.length text) = true)
    by (destruct text; [congruence | reflexivity]).
  assert (Hc : forall prompt,
             callHuggingFace env service prompt
             = inl "Failed to generate AI content").
  { intros prompt. unfold callHuggingFace.
    apply String.eqb_neq in Hk. rewrite Hk.
    destruct (Hf prompt) as [E|(st & E)]; now rewrite E. }
  unfold MetaDescription.metaDescription, BlogOutlineHandler.blogOutline,
    MetaDescription.metaDescriptionRequestSchema,
    BlogOutlineHandler.blogOutlineRequestSchema.
  rewrite Hs, !Hc. split; reflexivity.
Qed.

Lemma generator_service_failure_witness :
  BlogOutlineHandler.blogOutline
    {| HUGGING_FACE_API_KEY := None; HF_API_KEY := Some "hf_key" |}
    (fun _ _ => NotOk "Service Unavailable")
    "Ten SEO tips" (Some "beginners") BlogOutlineHandler.short
  = Some (Status500 "Failed to generate AI content").
Proof.
  apply (generator_service_failure _ _ "Ten SEO tips" (Some "beginners")
           BlogOutlineHandler.short).
  - discriminate.
  - discriminate.
  - intros prompt. right. now exists "Service Unavailable".
Defined.

(** X15. With a key, a body of the service without generated text,
    both fields undefined or empty, is no error: the meta description
    is the empty string of length 0, and the outline is the fallback
    for the topic. *)
Theorem generator_empty_text
        (env : Env) (service : Service)
        (text : string) (audience : option string)
        (length : BlogOutlineHandler.Length)
        (first top : option string) :
  apiKey env <> "" ->
  text <> "" ->
  (first = None \/ first = Some "") ->
  (top = None \/ top = Some "") ->
  (forall prompt, service (apiKey env) prompt = Body first top) ->
  MetaDescription.metaDescription env service text audience
  = Some (Json {| MetaDescription.content := "";
                  MetaDescription.length := 0 |})
  /\ exists r,
       BlogOutlineHandler.blogOutline env service text audience length
       = Some (Json r)
       /\ BlogOutlineHandler.sections r = BlogOutline.fallback text.
Proof.
  intros Hk Ht H1 H2 Hb.
  assert (Hs : (1 <=? String.length text) = true)
    by (destruct text; [congruence | reflexivity]).
  assert (Hc : forall prompt, callHuggingFace env service prompt = inr "").
  { intros prompt. unfold callHuggingFace.
    apply String.eqb_neq in Hk. rewrite Hk, Hb.
    destruct H1 as [-> | ->], H2 as [-> | ->]; reflexivity. }
  unfold MetaDescription.metaDescription, BlogOutlineHandler.blogOutline,
    MetaDescription.metaDescriptionRequestSchema,
    BlogOutlineHandler.blogOutlineRequestSchema.
  rewrite Hs, !Hc. split; [reflexivity|].
  eexists. split; reflexivity.
Qed.

Lemma generator_empty_text_witness :
  MetaDescription.metaDescription
    {| HUGGING_FACE_API_KEY := Some "hf_key"; HF_API_KEY := None |}
    (fun _ _ => Body None (Some "")) "Ten SEO tips" None
  = Some (Json {| MetaDescription.content := "";
                  MetaDescription.length := 0 |}).
Proof.
  apply (generator_empty_text _ _ "Ten SEO tips" None
           BlogOutlineHandler.medium None (Some "")).
  - discriminate.
  - discriminate.
  - left. reflexivity.
  - right. reflexivity.
  - reflexivity.
Defined.



End GeneratorClaims.

(* ================================================================== *)
(** * Blog Outline Generator: further properties of the parser *)
(* ================================================================== *)

Section BlogOutlineMore.
Import JS BlogOutline.

Lemma parse_spec (aiResponse : string) :
  parse aiResponse = sections_spec (map trim (lines aiResponse)).
Proof. unfold parse. now rewrite loop_closed. Qed.

Lemma drop_while_fixed (p : ascii -> bool) (s : string) :
  starts_with p s = false -> drop_while p s = s.
Proof. destruct s as [|c s]; [reflexivity|]. simpl. now intros ->. Qed.

Lemma trim_fixed (s : string) :
  starts_with is_space s = false -> trim_end s = s -> trim s = s.
Proof. intros H1 H2. unfold trim. now rewrite drop_while_fixed. Qed.

Lemma trim_idem (s : string) : trim (trim s) = trim s.
Proof. apply trim_fixed; [apply trim_starts | apply trim_end_trim]. Qed.

Lemma trim_end_slice1 (s : string) : trim_end s = s -> trim_end (slice1 s) = slice1 s.
Proof.
  destruct s as [|c s]; [reflexivity|]. apply trim_end_tail.
Qed.

Lemma stripNumber_trimmed (line : string) :
  trim (stripNumber (trim line)) = stripNumber (trim line).
Proof.
  unfold stripNumber. destruct (isNumbered (trim line)); [|apply trim_idem].
  apply trim_fixed; [apply drop_while_starts|].
  apply trim_end_drop_while, trim_end_slice1, trim_end_drop_while,
    trim_end_trim.
Qed.

Lemma sections_spec_length (ls : list string) :
  List.length (sections_spec ls) = List.length (filter isNumbered ls)
  /\ Forall (fun s => level s = 2) (sections_spec ls).
Proof.
  induction ls as [|l ls [IH1 IH2]]; [split; [reflexivity | constructor]|].
  simpl. destruct (isNumbered l); simpl.
  - split; [now rewrite IH1 | now constructor].
  - now split.
Qed.

Lemma subsections_spec_trimmed (ls : list string) :
  Forall (fun x => trim x = x) (subsections_spec ls).
Proof.
  induction ls as [|l ls IH]; [constructor|]. simpl.
  destruct (isNumbered l); [constructor|].
  destruct (startsWith "-" l); [|exact IH].
  constructor; [apply trim_idem | exact IH].
Qed.

Lemma subsections_spec_length (ls : list string) :
  List.length (subsections_spec ls)
  <= List.length (filter (startsWith "-") ls).
Proof.
  induction ls as [|l ls IH]; [reflexivity|]. simpl.
  destruct (isNumbered l), (startsWith "-" l); simpl; lia.
Qed.

Lemma subsectionCount_sum (sections : list OutlineSection) (n : nat) :
  fold_left (fun sum section => sum + List.length (subsections section))
    sections n
  = n + list_sum (map (fun s => List.length (subsections s)) sections).
Proof.
  revert n. induction sections as [|s ss IH]; intros n; simpl; [lia|].
  rewrite IH. lia.
Qed.

(** A numbered line takes no part in the subsections before it, and a
    dash line is no numbered line. *)
Lemma dash_not_numbered (l : string) :
  startsWith "-" l = true -> isNumbered l = false.
Proof.
  destruct l as [|c l]; [discriminate|]. unfold startsWith, isNumbered.
  cbn [starts_with]. intros H. apply Ascii.eqb_eq in H. subst c.
  reflexivity.
Qed.

Lemma sections_spec_subsections (ls : list string) :
  list_sum (map (fun s => List.length (subsections s)) (sections_spec ls))
  <= List.length (filter (startsWith "-") ls).
Proof.
  induction ls as [|l ls IH]; [reflexivity|]. simpl.
  destruct (isNumbered l) eqn:En.
  - assert (Hd : startsWith "-" l = false).
    { destruct (startsWith "-" l) eqn:Ed; [|reflexivity].
      apply dash_not_numbered in Ed. congruence. }
    rewrite Hd. simpl.
    (* the dash lines up to the next numbered line are counted once *)
    clear IH En Hd. induction ls as [|m ls IH]; [reflexivity|].
    simpl. destruct (isNumbered m) eqn:Em.
    + assert (Hm : startsWith "-" m = false).
      { destruct (startsWith "-" m) eqn:Ed; [|reflexivity].
        apply dash_not_numbered in Ed. congruence. }
      rewrite Hm. simpl in *. lia.
    + destruct (startsWith "-" m); simpl; lia.
  - destruct (startsWith "-" l); simpl; lia.
Qed.

(** X17. The parser makes one section of level 2 for every non-blank
    line that, once trimmed, begins with digits and a period, and no
    other section. *)
Theorem parse_section_count (aiResponse : string) :
  List.length (parse aiResponse)
  = List.length
      (filter (fun line => isNumbered (trim line)) (lines aiResponse))
  /\ Forall (fun s => level s = 2) (parse aiResponse).
Proof.
  rewrite parse_spec.
  destruct (sections_spec_length (map trim (lines aiResponse))) as [H1 H2].
  split; [|exact H2]. rewrite H1. clear H1 H2.
  induction (lines aiResponse) as [|l ls IH]; [reflexivity|].
  simpl. destruct (isNumbered (trim l)); simpl; now rewrite IH.
Qed.

(** X18. No heading and no subsection of a parsed section begins or
    ends with white space: trimming leaves each of them as it is. *)
Theorem parse_texts_trimmed (aiResponse : string) :
  Forall (fun s => trim (heading s) = heading s
                   /\ Forall (fun x => trim x = x) (subsections s))
    (parse aiResponse).
Proof.
  rewrite parse_spec.
  induction (lines aiResponse) as [|l ls IH]; [constructor|].
  simpl. destruct (isNumbered (trim l)); [|exact IH].
  constructor; [|exact IH]. cbn [heading subsections].
  split; [apply stripNumber_trimmed | apply subsections_spec_trimmed].
Qed.

End BlogOutlineMore.

(* ================================================================== *)
(** * The pages of the client *)
(* ================================================================== *)

Section ClientFacts.
Import JS BlogOutline.

(** *** The live word count *)

Lemma split_ws_head_empty (s : string) :
  exists p r, split_ws s = p :: r
              /\ (String.eqb p "" = at_word_end s).
Proof.
  destruct s as [|c s].
  - now exists "", [].
  - cbn [at_word_end]. destruct (is_space c) eqn:Hc.
    + destruct (split_ws_leading (String c s)) as (r & _ & E);
        [exact Hc|].
      exists "", r. now split.
    + destruct (split_ws_head_nonempty (String c s)) as (x & p & r & E);
        [exact Hc | discriminate |].
      exists (String x p), r. now split.
Qed.

Lemma nonempty_pieces_word_ends (s : string) :
  List.length (nonempty_pieces (split_ws s)) = word_ends s.
Proof.
  induction s as [|c s IH]; [reflexivity|].
  cbn [split_ws word_ends].
  destruct (split_ws_head_empty s) as (p & r & E & Hp).
  destruct (is_space c).
  - destruct (starts_with is_space s); [exact IH|].
    unfold nonempty_pieces in *. simpl. exact IH.
  - rewrite E in *. unfold nonempty_pieces in *. cbn [filter] in *.
    rewrite <- Hp. cbn [String.eqb negb List.length].
    destruct (String.eqb p ""); cbn [negb List.length] in *; lia.
Qed.

Lemma trim_end_empty (s : string) :
  trim_end s = "" -> at_word_end s = true /\ word_ends s = 0.
Proof.
  induction s as [|c s IH]; [now split|].
  cbn [trim_end at_word_end word_ends].
  destruct (trim_end s) eqn:E; [|discriminate].
  destruct (is_space c); [|discriminate].
  intros _. split; [reflexivity | now apply IH].
Qed.

Lemma trim_end_at_word_end (s : string) :
  trim_end s <> "" -> at_word_end (trim_end s) = at_word_end s.
Proof.
  destruct s as [|c s]; [reflexivity|]. cbn [trim_end at_word_end].
  destruct (trim_end s); [|reflexivity].
  destruct (is_space c) eqn:Hc; [congruence | intros _; exact Hc].
Qed.

Lemma word_ends_trim_end (s : string) :
  word_ends (trim_end s) = word_ends s.
Proof.
  induction s as [|c s IH]; [reflexivity|].
  cbn [trim_end word_ends].
  destruct (trim_end s) as [|d t] eqn:E.
  - destruct (trim_end_empty s E) as [He Hz].
    destruct (is_space c) eqn:Hc.
    + now rewrite Hz.
    + cbn [word_ends at_word_end]. now rewrite Hc, He, Hz.
  - assert (Ha : at_word_end (String d t) = at_word_end s).
    { rewrite <- E. apply trim_end_at_word_end. now rewrite E. }
    change (word_ends (String c (String d t)))
      with (if is_space c then word_ends (String d t)
            else if at_word_end (String d t)
                 then S (word_ends (String d t))
                 else word_ends (String d t)).
    now rewrite IH, Ha.
Qed.

Lemma word_ends_drop_while (s : string) :
  word_ends (drop_while is_space s) = word_ends s.
Proof.
  induction s as [|c s IH]; [reflexivity|].
  cbn [drop_while]. destruct (is_space c) eqn:Hc; [|reflexivity].
  cbn [word_ends]. now rewrite Hc.
Qed.

Lemma word_ends_trim (s : string) : word_ends (trim s) = word_ends s.
Proof. unfold trim. now rewrite word_ends_trim_end, word_ends_drop_while. Qed.

(** In a trimmed string that is not empty every piece is a word. *)
Lemma split_ws_trimmed (s : string) :
  starts_with is_space s = false -> trim_end s = s -> s <> "" ->
  nonempty_pieces (split_ws s) = split_ws s.
Proof.
  intros Hs He Hne.
  assert (H : forall t, trim_end t = t ->
              forall p r, split_ws t = p :: r ->
                          nonempty_pieces r = r).
  { clear. induction t as [|c t IH]; intros Ht p r E.
    - injection E as <- <-. reflexivity.
    - pose proof (trim_end_tail c t Ht) as Ht'.
      cbn [split_ws] in E.
      destruct (split_ws_head_empty t) as (q & u & Eq & Hq).
      rewrite Eq in E.
      destruct (is_space c) eqn:Hc.
      + destruct (starts_with is_space t) eqn:Hst.
        * injection E as <- <-. exact (IH Ht' _ _ Eq).
        * injection E as <- <-.
          unfold nonempty_pieces. cbn [filter].
          destruct t as [|d t].
          -- cbn [trim_end] in Ht. rewrite Hc in Ht. discriminate Ht.
          -- cbn [at_word_end starts_with] in *. rewrite Hst in Hq.
             rewrite Hq. cbn [negb]. f_equal. exact (IH Ht' _ _ Eq).
      + injection E as <- <-. exact (IH Ht' _ _ Eq). }
  destruct (split_ws_head_empty s) as (p & r & E & Hp).
  rewrite E. unfold nonempty_pieces. cbn [filter].
  destruct s as [|c s]; [congruence|].
  cbn [at_word_end starts_with] in *. rewrite Hs in Hp. rewrite Hp.
  cbn [negb]. f_equal. exact (H _ He _ _ E).
Qed.

(** X20. The live word count of the keyword page is the number of
    non-empty pieces between the runs of white space of the content;
    white space around the content does not count. *)
Theorem live_word_count (content : string) :
  Client.wordCount content
  = List.length (nonempty_pieces (split_ws content))
  /\ Client.wordCount (trim content) = Client.wordCount content.
Proof.
  assert (H : forall c, Client.wordCount c = word_ends c).
  { intros c. unfold Client.wordCount.
    rewrite <- (word_ends_trim c).
    destruct (String.eqb_spec (trim c) "") as [E|E].
    - now rewrite E.
    - rewrite <- nonempty_pieces_word_ends. f_equal. symmetry.
      apply split_ws_trimmed;
        [apply trim_starts | apply trim_end_trim | exact E]. }
  split.
  - now rewrite H, nonempty_pieces_word_ends.
  - now rewrite !H, word_ends_trim.
Qed.

(** *** The text of [copyOutline] *)

Lemma split_at_cons (sep : ascii -> bool) (s : string) :
  exists p r, split_at sep s = p :: r.
Proof.
  induction s as [|c s (p & r & IH)]; simpl; [now exists "", []|].
  destruct (sep c); [eauto|]. rewrite IH. eauto.
Qed.

Lemma split_at_app (sep : ascii -> bool) (a b : string) (c : ascii) :
  sep c = true ->
  split_at sep (a ++ String c b) = split_at sep a ++ split_at sep b.
Proof.
  intros Hc. induction a as [|x a IH]; simpl.
  - now rewrite Hc.
  - rewrite IH. destruct (sep x); [reflexivity|].
    destruct (split_at_cons sep a) as (p & r & E). now rewrite E.
Qed.

Lemma split_at_one (sep : ascii -> bool) (s : string) :
  all_chars (fun c => negb (sep c)) s = true -> split_at sep s = [s].
Proof.
  induction s as [|c s IH]; [reflexivity|]. simpl. intros H.
  apply andb_true_iff in H as [Hc Hs]. apply negb_true_iff in Hc.
  now rewrite Hc, IH.
Qed.

Lemma lines_app (a b : string) :
  lines (a ++ String "010" b) = lines a ++ lines b.
Proof.
  unfold lines, split_lines.
  rewrite (split_at_app _ a b "010"%char) by reflexivity.
  apply filter_app.
Qed.

Lemma lines_one (s : string) :
  no_LF s = true -> trim s <> "" -> lines s = [s].
Proof.
  intros Hs Ht. unfold lines, split_lines.
  rewrite split_at_one by exact Hs. simpl.
  apply String.eqb_neq in Ht. now rewrite Ht.
Qed.

Lemma lines_empty : lines "" = [].
Proof. reflexivity. Qed.

Lemma lines_joinLF (ls : list string) :
  lines (Client.joinLF ls) = List.concat (map lines ls).
Proof.
  unfold Client.joinLF. induction ls as [|l ls IH]; [reflexivity|].
  destruct ls as [|l2 ls]; [simpl; now rewrite app_nil_r|].
  change (String.concat (String "010" "") (l :: l2 :: ls))
    with (l ++ String "010" (String.concat (String "010" "") (l2 :: ls)))%string.
  rewrite lines_app, IH. reflexivity.
Qed.

Lemma lines_joinLFLF (ls : list string) :
  lines (Client.joinLFLF ls) = List.concat (map lines ls).
Proof.
  unfold Client.joinLFLF. induction ls as [|l ls IH]; [reflexivity|].
  destruct ls as [|l2 ls]; [simpl; now rewrite app_nil_r|].
  change (String.concat (String "010" (String "010" "")) (l :: l2 :: ls))
    with (l ++ String "010"
            ("" ++ String "010"
               (String.concat (String "010" (String "010" "")) (l2 :: ls))))%string.
  rewrite !lines_app, IH. reflexivity.
Qed.

(** *** Decimal numerals *)

Lemma string_of_uint_digits (d : Decimal.uint) :
  all_chars is_digit (NilEmpty.string_of_uint d) = true.
Proof. induction d; simpl; try assumption; reflexivity. Qed.

Lemma decimal_digits (n : nat) :
  all_chars is_digit (Client.decimal n) = true
  /\ Client.decimal n <> "".
Proof.
  unfold Client.decimal, NilZero.string_of_uint.
  destruct (Nat.to_uint n);
    (split; [apply string_of_uint_digits || reflexivity | discriminate]).
Qed.

Lemma digit_not_space (c : ascii) : is_digit c = true -> is_space c = false.
Proof.
  destruct c as [[] [] [] [] [] [] [] []]; intros H;
    try reflexivity; discriminate H.
Qed.

Lemma digit_not_LF (c : ascii) :
  is_digit c = true -> negb (code c =? 10) = true.
Proof.
  destruct c as [[] [] [] [] [] [] [] []]; intros H;
    try reflexivity; discriminate H.
Qed.

(** *** Trimming a line of the text *)

Lemma trim_end_app_fixed (a h : string) :
  trim_end h = h -> h <> "" -> trim_end (a ++ h) = (a ++ h)%string.
Proof.
  intros Hh Hne. induction a as [|c a IH]; [exact Hh|].
  cbn [append trim_end]. rewrite IH.
  destruct (a ++ h)%string eqn:E; [|reflexivity].
  destruct a; simpl in E; [congruence | discriminate].
Qed.

Lemma trim_end_app_space (a : string) (c : ascii) :
  is_space c = true -> trim_end (a ++ String c "") = trim_end a.
Proof.
  intros Hc. induction a as [|x a IH]; simpl; [now rewrite Hc|].
  now rewrite IH.
Qed.

Lemma trim_end_sep (a x : string) :
  trim_end a = a -> a <> "" -> trim_end x = x ->
  trim_end (a ++ String " " x) = (a ++ after_space x)%string.
Proof.
  intros Ha Hne Hx. destruct x as [|c x].
  - rewrite trim_end_app_space by reflexivity. cbn [after_space].
    now rewrite append_empty_r.
  - cbn [after_space].
    change (String " " (String c x)) with (" " ++ String c x)%string.
    rewrite <- append_assoc.
    rewrite trim_end_app_fixed; [reflexivity | exact Hx | discriminate].
Qed.

Lemma drop_while_app (p : ascii -> bool) (a b : string) :
  all_chars p a = true -> starts_with p b = false ->
  drop_while p (a ++ b) = b.
Proof.
  intros Ha Hb. induction a as [|c a IH]; simpl.
  - now apply drop_while_fixed.
  - simpl in Ha. apply andb_true_iff in Ha as [Hc Ha]. rewrite Hc. auto.
Qed.

Lemma drop_after_space (x : string) :
  starts_with is_space x = false ->
  drop_while is_space (after_space x) = x.
Proof.
  intros H. destruct x as [|c x]; [reflexivity|].
  cbn [after_space]. change (drop_while is_space (String " " (String c x)))
    with (drop_while is_space (String c x)).
  now apply drop_while_fixed.
Qed.

Lemma clean_inv (x : string) :
  clean x = true ->
  starts_with is_space x = false /\ trim_end x = x /\ trim x = x
  /\ no_LF x = true.
Proof.
  unfold clean. intros H. apply andb_true_iff in H as [Ht Hl].
  apply String.eqb_eq in Ht.
  repeat split; try assumption.
  - rewrite <- Ht. apply trim_starts.
  - rewrite <- Ht. apply trim_end_trim.
Qed.

Lemma no_LF_app (a b : string) : no_LF (a ++ b) = no_LF a && no_LF b.
Proof.
  unfold no_LF. induction a as [|c a IH]; simpl; [reflexivity|].
  now rewrite IH, andb_assoc.
Qed.

Lemma digits_no_LF (d : string) : all_chars is_digit d = true -> no_LF d = true.
Proof.
  unfold no_LF. induction d as [|c d IH]; [reflexivity|]. simpl.
  intros H. apply andb_true_iff in H as [Hc Hd].
  now rewrite (digit_not_LF c Hc), IH.
Qed.

(** The heading line of a section: it is one line, and trimmed it is a
    numbered line whose heading is [h]. *)
Lemma header_line (d h : string) :
  all_chars is_digit d = true -> d <> "" -> clean h = true ->
  let line := (d ++ ". " ++ h)%string in
  lines line = [line]
  /\ isNumbered (trim line) = true
  /\ stripNumber (trim line) = h.
Proof.
  intros Hd Hne Hh line.
  destruct (clean_inv h Hh) as (Hs & He & _ & Hl).
  assert (Ht : trim line = (d ++ "." ++ after_space h)%string).
  { unfold trim, line. rewrite drop_while_fixed.
    - change (d ++ ". " ++ h)%string with (d ++ "." ++ String " " h)%string.
      rewrite <- !append_assoc. apply trim_end_sep.
      + apply trim_end_app_fixed; [reflexivity | discriminate].
      + destruct d; [congruence | discriminate].
      + exact He.
    - destruct d as [|c d]; [congruence|]. simpl in *.
      apply andb_true_iff in Hd as [Hc _]. now apply digit_not_space. }
  assert (Hdrop : drop_while is_digit (trim line)
                  = ("." ++ after_space h)%string).
  { rewrite Ht. apply drop_while_app; [exact Hd | reflexivity]. }
  assert (Hnum : isNumbered (trim line) = true).
  { unfold isNumbered. rewrite Hdrop. rewrite Ht.
    destruct d as [|c d]; [congruence|]. simpl in *.
    apply andb_true_iff in Hd as [Hc _]. now rewrite Hc. }
  split; [|split; [exact Hnum|]].
  - apply lines_one.
    + unfold line. rewrite !no_LF_app, (digits_no_LF d Hd), Hl. reflexivity.
    + rewrite Ht. destruct d; [congruence | discriminate].
  - unfold stripNumber. rewrite Hnum, Hdrop. cbn [append slice1].
    now apply drop_after_space.
Qed.

(** The line of a subsection: it is one line, and trimmed it is a dash
    line, no numbered line, whose trimmed rest is [x]. *)
Lemma dash_line (x : string) :
  clean x = true ->
  let line := ("   - " ++ x)%string in
  lines line = [line]
  /\ isNumbered (trim line) = false
  /\ startsWith "-" (trim line) = true
  /\ trim (slice1 (trim line)) = x.
Proof.
  intros Hx line. destruct (clean_inv x Hx) as (Hs & He & Htx & Hl).
  assert (Ht : trim line = ("-" ++ after_space x)%string).
  { unfold trim, line.
    change (drop_while is_space ("   - " ++ x))
      with ("-" ++ String " " x)%string.
    apply trim_end_sep; [reflexivity | discriminate | exact He]. }
  split; [|rewrite Ht; repeat split].
  - apply lines_one.
    + unfold line. rewrite no_LF_app, Hl. reflexivity.
    + rewrite Ht. discriminate.
  - cbn [append slice1]. unfold trim. rewrite drop_after_space by exact Hs.
    exact He.
Qed.

(** *** The outline of the text *)

Lemma sections_spec_skip (pre ls : list string) :
  Forall (fun l => isNumbered l = false) pre ->
  sections_spec (pre ++ ls) = sections_spec ls.
Proof.
  induction 1 as [|l pre Hl _ IH]; [reflexivity|].
  simpl. now rewrite Hl.
Qed.

(** The trimmed lines of the subsections [xs] give [xs], up to the next
    numbered line. *)
Lemma dash_lines (xs : list string) (rest : list string) :
  forallb clean xs = true ->
  let ls := map trim (map (fun sub => ("   - " ++ sub)%string) xs) in
  lines (Client.joinLF (map (fun sub => ("   - " ++ sub)%string) xs))
  = map (fun sub => ("   - " ++ sub)%string) xs
  /\ subsections_spec (ls ++ rest) = xs ++ subsections_spec rest
  /\ sections_spec (ls ++ rest) = sections_spec rest.
Proof.
  intros H ls. unfold ls. clear ls. rewrite lines_joinLF.
  induction xs as [|x xs IH]; [now repeat split|].
  simpl in H. apply andb_true_iff in H as [Hx Hxs].
  destruct (IH Hxs) as (IH1 & IH2 & IH3).
  destruct (dash_line x Hx) as (L1 & L2 & L3 & L4).
  cbn [map List.concat app subsections_spec sections_spec].
  rewrite L1, IH1, L2, L3, L4, IH2, IH3. now repeat split.
Qed.

(** The lines of the text of one section. *)
Lemma section_lines (s : OutlineSection) (i : Z) (rest : list string) :
  cleanSection s = true ->
  subsections_spec rest = [] ->
  sections_spec (map trim (lines (Client.sectionText s i)) ++ rest)
  = s :: sections_spec rest
  /\ subsections_spec (map trim (lines (Client.sectionText s i)) ++ rest)
     = [].
Proof.
  intros Hc Hrest. unfold cleanSection in Hc.
  apply andb_true_iff in Hc as [Hc Hsubs].
  apply andb_true_iff in Hc as [Hlevel Hh].
  apply Nat.eqb_eq in Hlevel.
  destruct (decimal_digits (Z.to_nat (i + 1))) as [Hd Hne].
  destruct (header_line _ _ Hd Hne Hh) as (L1 & L2 & L3).
  destruct (dash_lines (subsections s) rest Hsubs) as (D1 & D2 & D3).
  assert (E : lines (Client.sectionText s i)
              = (Client.decimal (Z.to_nat (i + 1)) ++ ". " ++ heading s)%string
                :: map (fun sub => ("   - " ++ sub)%string) (subsections s)).
  { unfold Client.sectionText.
    destruct (subsections s) as [|x xs] eqn:Es; [exact L1|].
    change (lines
              ((Client.decimal (Z.to_nat (i + 1)) ++ ". " ++ heading s)
               ++ String "010"
                    (Client.joinLF
                       (map (fun sub => ("   - " ++ sub)%string) (x :: xs))))
            = (Client.decimal (Z.to_nat (i + 1)) ++ ". " ++ heading s)%string
              :: map (fun sub => ("   - " ++ sub)%string) (x :: xs)).
    rewrite lines_app, L1, D1. reflexivity. }
  rewrite E. cbn [map app sections_spec subsections_spec].
  rewrite L2, L3, D2, D3, Hrest, app_nil_r.
  split; [|reflexivity]. f_equal.
  destruct s as [h l xs]. simpl in *. now subst l.
Qed.

Lemma outline_lines (sections : list OutlineSection) (k : Z) :
  forallb cleanSection sections = true ->
  let ls := map trim
              (List.concat
                 (map lines (TitleCase.mapi_from Client.sectionText k sections)))
  in sections_spec ls = sections /\ subsections_spec ls = [].
Proof.
  revert k. induction sections as [|s ss IH]; intros k H; [now split|].
  simpl in H. apply andb_true_iff in H as [Hs Hss].
  destruct (IH (k + 1)%Z Hss) as [IH1 IH2].
  cbn [TitleCase.mapi_from map List.concat]. rewrite map_app.
  destruct (section_lines s k _ Hs IH2) as [S1 S2].
  cbn zeta. rewrite S1, S2, IH1. now split.
Qed.

Lemma outline_text_parse
      (title : string) (sections : list OutlineSection) :
  forallb cleanSection sections = true ->
  Forall (fun line => isNumbered (trim line) = false) (lines title) ->
  parse (Client.outlineText title sections) = sections.
Proof.
  intros Hs Ht. rewrite parse_spec. unfold Client.outlineText.
  change (title ++ String "010" (String "010" "")
          ++ Client.joinLFLF (TitleCase.mapi Client.sectionText sections))%string
    with (title ++ String "010"
            ("" ++ String "010"
               (Client.joinLFLF
                  (TitleCase.mapi Client.sectionText sections))))%string.
  rewrite !lines_app, lines_empty, lines_joinLFLF. cbn [app].
  rewrite map_app, sections_spec_skip by (apply Forall_map; exact Ht).
  apply (outline_lines sections 0 Hs).
Qed.

(** X21. The text [copyOutline] puts on the clipboard parses back to
    the sections it was made of: when the sections have level 2, their
    headings and subsections are single lines with no white space
    around them, and no line of the title is a numbered line, the parser
    gives exactly these sections for the text, and so does the
    generator's structuring when there is a section. *)
Theorem outline_text_round_trip
        (title topic : string) (sections : list OutlineSection) :
  forallb cleanSection sections = true ->
  Forall (fun line => isNumbered (trim line) = false) (lines title) ->
  parse (Client.outlineText title sections) = sections
  /\ (sections <> [] ->
      structure (Client.outlineText title sections) topic = sections).
Proof.
  intros Hs Ht. pose proof (outline_text_parse title sections Hs Ht) as H.
  split; [exact H|]. intros Hne. unfold structure. rewrite H.
  destruct sections; [congruence | reflexivity].
Qed.

Lemma outline_text_round_trip_witness :
  parse (Client.outlineText "X" (parse exampleOutline))
  = parse exampleOutline
  /\ structure (Client.outlineText "X" (parse exampleOutline)) "X"
     = parse exampleOutline.
Proof.
  destruct (outline_text_round_trip "X" "X" (parse exampleOutline))
    as [H1 H2].
  - reflexivity.
  - repeat constructor.
  - split; [exact H1 | apply H2; discriminate].
Defined.

(** X19. The number of subsections the page shows for a parsed outline
    is at most the number of non-blank lines that begin, once trimmed,
    with a dash: a dash line gives at most one subsection, and a dash
    line in front of the text gives none. *)
Theorem parse_subsection_count (aiResponse : string) :
  Client.subsectionCount (parse aiResponse)
  <= List.length
       (filter (fun line => startsWith "-" (trim line)) (lines aiResponse))
  /\ (forall first,
        no_LF first = true ->
        startsWith "-" (trim first) = true ->
        parse (first ++ String "010" aiResponse) = parse aiResponse).
Proof.
  split.
  - unfold Client.subsectionCount. rewrite subsectionCount_sum, parse_spec.
    simpl.
    etransitivity; [apply sections_spec_subsections|].
    induction (lines aiResponse) as [|l ls IH]; [reflexivity|].
    simpl. destruct (startsWith "-" (trim l)); simpl; lia.
  - intros first Hl Hd. rewrite !parse_spec, lines_app.
    rewrite lines_one; [|exact Hl|].
    + cbn [app map sections_spec].
      now rewrite (dash_not_numbered _ Hd).
    + intros E. rewrite E in Hd. discriminate Hd.
Qed.

Lemma parse_subsection_count_witness :
  parse ("  - dropped" ++ String "010" exampleOutline) = parse exampleOutline.
Proof.
  apply (proj2 (parse_subsection_count exampleOutline) "  - dropped");
    reflexivity.
Defined.

End ClientFacts.
